(** * Happyapprovebot: the authorization and persistence core of [bot.py]

    A shallow embedding of [src/bot.py]: the two SQLite tables behind
    [DatabaseManager], its six methods, the six command handlers with their
    Python control flow (early [return], [try]/[except], replies through
    [update.message]) and the startup path of the script.

    Modelling boundary.  The storage layer is taken to work (no I/O failure of
    SQLite, no network failure of [reply_text]); logging is left out; user
    identifiers are SQLite INTEGER values taken as [Z]; strings are byte
    strings.  The handlers touch the database in one uninterrupted block (no
    [await] sits between two database calls of one handler), so a run of the
    bot is a sequence of handler executions. *)

From Stdlib Require Import ZArith List Bool Ascii String Lia.
From Stdlib Require Import Permutation Sorted RelationClasses.
From Stdlib Require Import DecimalString OrdersEx.
From Stdlib Require DecimalZ.
Import ListNotations.

Local Open Scope string_scope.
Local Open Scope list_scope.
Local Open Scope Z_scope.

(** ** 1. Configuration *)

(** [ADMIN_IDS = {123456789, 987654321}] *)
Definition ADMIN_IDS : list Z := [123456789; 987654321].

(** ** Python values used by the handlers *)

(** The newline character of the f-strings. *)
Definition nl : string := String "010"%char EmptyString.

(** [str(n)] for an [int]. *)
Definition str (n : Z) : string := NilZero.string_of_int (Z.to_int n).

(** [sep.join(parts)] *)
Fixpoint join (sep : string) (parts : list string) : string :=
  match parts with
  | [] => EmptyString
  | [p] => p
  | p :: rest => p ++ sep ++ join sep rest
  end.

(** [''.join(lines)] *)
Definition concat_lines (lines : list string) : string :=
  join EmptyString lines.

(** [link.startswith(p)] *)
Definition startswith (s p : string) : bool := String.prefix p s.

Definition is_digit (c : ascii) : bool :=
  let n := N_of_ascii c in (48 <=? n)%N && (n <=? 57)%N.

Definition digit_value (c : ascii) : Z := Z.of_N (N_of_ascii c) - 48.

Definition is_space (c : ascii) : bool :=
  let n := N_of_ascii c in ((9 <=? n)%N && (n <=? 13)%N) || (n =? 32)%N.

(** The digits of an integer literal, most significant first: single
    underscores are allowed between two digits.  [prev] tells whether the
    previous character was a digit. *)
Fixpoint int_digits (s : string) (prev : bool) (acc : Z) : option Z :=
  match s with
  | EmptyString => if prev then Some acc else None
  | String c rest =>
      if is_digit c then int_digits rest true (10 * acc + digit_value c)
      else if (Ascii.eqb c "_"%char && prev)%bool then int_digits rest false acc
      else None
  end.

Fixpoint lstrip (s : string) : string :=
  match s with
  | String c rest => if is_space c then lstrip rest else s
  | EmptyString => s
  end.

Fixpoint rev_string (s acc : string) : string :=
  match s with
  | EmptyString => acc
  | String c rest => rev_string rest (String c acc)
  end.

Definition strip (s : string) : string :=
  lstrip (rev_string (lstrip (rev_string (lstrip s) EmptyString)) EmptyString).

(** [int(s)] on a [str] in base 10: surrounding whitespace, an optional
    sign, ASCII decimal digits.  [None] is [ValueError]. *)
Definition int (s : string) : option Z :=
  match strip s with
  | String "-" rest => option_map Z.opp (int_digits rest false 0)
  | String "+" rest => int_digits rest false 0
  | t => int_digits t false 0
  end.

(** ** 3. The database *)

(** A row of [invite_links (id, submitter_id, link, timestamp)]. *)
Record InviteLink : Type := mkInviteLink {
  id : Z;
  submitter_id : Z;
  link : string;
  timestamp : string
}.

(** The file [bot_data.db]: the rows of [authorized_users (user_id INTEGER
    PRIMARY KEY)], the rows of [invite_links] in rowid order, and the
    counter SQLite keeps for the AUTOINCREMENT column. *)
Record Database : Type := mkDatabase {
  authorized_users : list Z;
  invite_links : list InviteLink;
  sqlite_sequence : Z
}.

(** What [_setup_db] creates in a fresh file. *)
Definition empty_db : Database :=
  {| authorized_users := []; invite_links := []; sqlite_sequence := 0 |}.

Module Sql.

(** Where a new key goes in a rowid table: rows are kept by ascending key. *)
Fixpoint place (u : Z) (rows : list Z) : list Z :=
  match rows with
  | [] => [u]
  | r :: rest => if u <? r then u :: rows else r :: place u rest
  end.

(** [INSERT OR IGNORE INTO authorized_users (user_id) VALUES (u)]: the new
    table and [cursor.rowcount].  A key already in the table conflicts with
    the primary key and the statement is ignored. *)
Definition insert_or_ignore (u : Z) (rows : list Z) : list Z * Z :=
  if existsb (Z.eqb u) rows then (rows, 0) else (place u rows, 1).

(** [DELETE FROM authorized_users WHERE user_id = u]: the new table and
    [cursor.rowcount], the number of rows deleted. *)
Definition delete_where (u : Z) (rows : list Z) : list Z * Z :=
  let kept := filter (fun r => negb (r =? u)) rows in
  (kept, Z.of_nat (List.length rows) - Z.of_nat (List.length kept)).

(** [SELECT 1 FROM authorized_users WHERE user_id = u] *)
Definition select_1_where (u : Z) (rows : list Z) : list Z :=
  map (fun _ => 1) (filter (fun r => r =? u) rows).

(** [cursor.fetchone()] *)
Definition fetchone {A : Type} (rows : list A) : option A := hd_error rows.

(** Text comparison of the BINARY collation: [a > b]. *)
Definition text_gtb (a b : string) : bool :=
  match String_as_OT.compare a b with Gt => true | _ => false end.

(** One step of the sorter for [ORDER BY timestamp DESC]: the row [r]
    precedes every row already sorted (it was scanned earlier), and moves
    behind exactly those whose timestamp is strictly greater. *)
Fixpoint sorter_insert (r : InviteLink) (sorted : list InviteLink)
  : list InviteLink :=
  match sorted with
  | [] => [r]
  | s :: rest =>
      if text_gtb (timestamp s) (timestamp r)
      then s :: sorter_insert r rest
      else r :: sorted
  end.

(** The columns [submitter_id, link, timestamp] of a row. *)
Definition columns (r : InviteLink) : Z * string * string :=
  (submitter_id r, link r, timestamp r).

(** [SELECT ... FROM invite_links ORDER BY timestamp DESC]: the table is
    scanned in rowid order and sorted on the timestamp alone; the sorter
    is stable. *)
Fixpoint order_by_timestamp_desc (rows : list InviteLink) : list InviteLink :=
  match rows with
  | [] => []
  | r :: rest => sorter_insert r (order_by_timestamp_desc rest)
  end.

End Sql.

(** ** The methods of [DatabaseManager]

    Each takes the database and returns the new database with the method's
    result.  [now] is the value of [CURRENT_TIMESTAMP] when the row is
    inserted. *)

(** Adds a user to the authorized list; [rowcount > 0] tells whether a row
    was inserted. *)
Definition add_authorized_user (user_id : Z) (d : Database) : Database * bool :=
  let (rows, rowcount) := Sql.insert_or_ignore user_id (authorized_users d) in
  ({| authorized_users := rows;
      invite_links := invite_links d;
      sqlite_sequence := sqlite_sequence d |},
   rowcount >? 0).

(** Removes a user from the authorized list; [rowcount > 0] tells whether
    a row was deleted. *)
Definition remove_authorized_user (user_id : Z) (d : Database) : Database * bool :=
  let (rows, rowcount) := Sql.delete_where user_id (authorized_users d) in
  ({| authorized_users := rows;
      invite_links := invite_links d;
      sqlite_sequence := sqlite_sequence d |},
   rowcount >? 0).

(** [cursor.fetchone() is not None] *)
Definition is_authorized (user_id : Z) (d : Database) : bool :=
  match Sql.fetchone (Sql.select_1_where user_id (authorized_users d)) with
  | Some _ => true
  | None => false
  end.

(** [SELECT user_id FROM authorized_users] *)
Definition get_authorized_users (d : Database) : list Z := authorized_users d.

(** [INSERT INTO invite_links (submitter_id, link) VALUES (?, ?)]: the id is
    the next value of the AUTOINCREMENT counter, the timestamp the default
    [CURRENT_TIMESTAMP]. *)
Definition add_invite_link (submitter : Z) (l : string) (now : string)
    (d : Database) : Database :=
  let new_id := sqlite_sequence d + 1 in
  {| authorized_users := authorized_users d;
     invite_links := invite_links d ++
       [ {| id := new_id; submitter_id := submitter; link := l; timestamp := now |} ];
     sqlite_sequence := new_id |}.

(** [SELECT submitter_id, link, timestamp FROM invite_links ORDER BY
    timestamp DESC] *)
Definition get_all_links (d : Database) : list (Z * string * string) :=
  map Sql.columns (Sql.order_by_timestamp_desc (invite_links d)).

(** ** 4. Helper functions *)

(** [user_id in ADMIN_IDS] *)
Definition is_admin (user_id : Z) : bool := existsb (Z.eqb user_id) ADMIN_IDS.

(** ** The chat transport, as the handlers see it *)

Inductive ParseMode : Type := MARKDOWN.

(** [update.message]: the message to reply to, with the chat it came from. *)
Record Message : Type := mkMessage { chat_id : Z }.

(** [update]: [effective_user_id] is [update.effective_user.id];
    [message] is [update.message], which is [None] on an update that is not
    a new message (an edited message still reaches a [CommandHandler]). *)
Record Update : Type := mkUpdate {
  effective_user_id : Z;
  message : option Message
}.

(** One call of [reply_text]. *)
Record Reply : Type := mkReply {
  chat : Z;
  text : string;
  parse_mode : option ParseMode
}.

(** What a handler can change: the database and the replies sent so far. *)
Record World : Type := mkWorld {
  db : Database;
  sent : list Reply
}.

(** ** Python control flow: state and exceptions *)

Inductive exn : Type := IndexError | ValueError | AttributeError.

Inductive result (A : Type) : Type :=
| Ok (a : A)
| Raise (e : exn).
Arguments Ok {A} a.
Arguments Raise {A} e.

Definition Py (A : Type) : Type := World -> result A * World.

Definition ret {A : Type} (a : A) : Py A := fun w => (Ok a, w).

Definition raise {A : Type} (e : exn) : Py A := fun w => (Raise e, w).

Definition bind {A B : Type} (m : Py A) (k : A -> Py B) : Py B :=
  fun w =>
    match m w with
    | (Ok a, w') => k a w'
    | (Raise e, w') => (Raise e, w')
    end.

(** [try: body except ...: handler]: what the body did before it raised
    stays done; an exception of the handler propagates. *)
Definition try_except {A : Type} (body : Py A) (handler : exn -> Py A) : Py A :=
  fun w =>
    match body w with
    | (Ok a, w') => (Ok a, w')
    | (Raise e, w') => handler e w'
    end.

Declare Scope py_scope.
Delimit Scope py_scope with py.
Notation "x <- m ;; k" := (bind m (fun x => k))
  (at level 61, m at next level, right associativity) : py_scope.
Notation "m ;;; k" := (bind m (fun _ => k))
  (at level 61, right associativity) : py_scope.
Local Open Scope py_scope.

(** A call of a [DatabaseManager] method that returns a value. *)
Definition call_db {A : Type} (f : Database -> Database * A) : Py A :=
  fun w => let (d, a) := f (db w) in (Ok a, {| db := d; sent := sent w |}).

(** A call of a [DatabaseManager] method that only reads. *)
Definition query_db {A : Type} (f : Database -> A) : Py A :=
  fun w => (Ok (f (db w)), w).

(** A call of a [DatabaseManager] method that returns nothing. *)
Definition exec_db (f : Database -> Database) : Py unit :=
  fun w => (Ok tt, {| db := f (db w); sent := sent w |}).

(** [await m.reply_text(t, parse_mode=pm)] where [m] is [update.message]:
    on [None] the attribute access raises [AttributeError]. *)
Definition reply_text (m : option Message) (t : string)
    (pm : option ParseMode) : Py unit :=
  fun w =>
    match m with
    | None => (Raise AttributeError, w)
    | Some msg =>
        (Ok tt,
         {| db := db w;
            sent := sent w ++ [ {| chat := chat_id msg; text := t; parse_mode := pm |} ] |})
    end.

(** [context.args[0]] *)
Definition args_0 (args : list string) : Py string :=
  match args with
  | [] => raise IndexError
  | a :: _ => ret a
  end.

(** [int(s)] as a statement that may raise [ValueError]. *)
Definition to_int (s : string) : Py Z :=
  match int s with
  | Some n => ret n
  | None => raise ValueError
  end.

(** The reply of [if not is_admin(user_id): if update.message: ...]. *)
Definition not_admin_text : string :=
  "You are not authorized to use this command.".

Definition internal_error_text : string := "An internal error occurred.".

(** ** 5. Bot command handlers *)

Definition start (update : Update) (args : list string) : Py unit :=
  match message update with
  | Some _ =>
      reply_text (message update)
        ("Hello! I am a bot for managing invite links. " ++
         "Admins can add/remove authorized users and view submitted links.")
        None
  | None => ret tt
  end.

(** The guard every admin-only handler starts with. *)
Definition deny_not_admin (update : Update) : Py unit :=
  match message update with
  | Some _ => reply_text (message update) not_admin_text None
  | None => ret tt
  end.

Definition add_user (update : Update) (args : list string) : Py unit :=
  let user_id := effective_user_id update in
  if negb (is_admin user_id) then deny_not_admin update
  else
    try_except
      (a <- args_0 args ;;
       user_to_add <- to_int a ;;
       added <- call_db (add_authorized_user user_to_add) ;;
       if added : bool then
         reply_text (message update)
           ("User with ID `" ++ str user_to_add ++
            "` has been added to the authorized list.")
           (Some MARKDOWN)
       else
         reply_text (message update)
           ("User with ID `" ++ str user_to_add ++
            "` is already in the authorized list.")
           (Some MARKDOWN))
      (fun e =>
         match e with
         | IndexError | ValueError =>
             reply_text (message update) "Usage: `/add_user <user_id>`"
               (Some MARKDOWN)
         | _ => reply_text (message update) internal_error_text None
         end).

Definition remove_user (update : Update) (args : list string) : Py unit :=
  let user_id := effective_user_id update in
  if negb (is_admin user_id) then deny_not_admin update
  else
    try_except
      (a <- args_0 args ;;
       user_to_remove <- to_int a ;;
       removed <- call_db (remove_authorized_user user_to_remove) ;;
       if removed : bool then
         reply_text (message update)
           ("User with ID `" ++ str user_to_remove ++
            "` has been removed from the authorized list.")
           (Some MARKDOWN)
       else
         reply_text (message update)
           ("User with ID `" ++ str user_to_remove ++
            "` was not found in the authorized list.")
           (Some MARKDOWN))
      (fun e =>
         match e with
         | IndexError | ValueError =>
             reply_text (message update) "Usage: `/remove_user <user_id>`"
               (Some MARKDOWN)
         | _ => reply_text (message update) internal_error_text None
         end).

Definition list_users (update : Update) (args : list string) : Py unit :=
  let user_id := effective_user_id update in
  if negb (is_admin user_id) then deny_not_admin update
  else
    try_except
      (users <- query_db get_authorized_users ;;
       match users with
       | _ :: _ =>
           let user_list := join nl (map str users) in
           reply_text (message update)
             ("Authorized users:" ++ nl ++ "```" ++ nl ++ user_list ++ nl ++ "```")
             (Some MARKDOWN)
       | [] => reply_text (message update) "No authorized users found." None
       end)
      (fun _ => reply_text (message update) internal_error_text None).

Definition submit_link (now : string) (update : Update) (args : list string)
    : Py unit :=
  let user_id := effective_user_id update in
  authorized <- query_db (is_authorized user_id) ;;
  if negb authorized then
    reply_text (message update)
      "You are not authorized to submit links. Please contact an admin." None
  else
    try_except
      (l <- args_0 args ;;
       if negb (startswith l "https://t.me/joinchat/")
          && negb (startswith l "https://t.me/+")
       then
         reply_text (message update)
           "That doesn't look like a valid Telegram invite link." None
       else
         exec_db (add_invite_link user_id l now) ;;;
         reply_text (message update)
           "Thank you! Your invite link has been submitted." None)
      (fun e =>
         match e with
         | IndexError =>
             reply_text (message update) "Usage: `/submit_link <invite_link>`"
               (Some MARKDOWN)
         | _ => reply_text (message update) internal_error_text None
         end).

(** One line of the [list_links] reply. *)
Definition link_line (row : Z * string * string) : string :=
  let '(s, l, t) := row in
  "- User ID: " ++ str s ++ nl ++ "  Link: " ++ l ++ nl ++ "  Time: " ++ t ++ nl.

Definition list_links (update : Update) (args : list string) : Py unit :=
  let user_id := effective_user_id update in
  if negb (is_admin user_id) then deny_not_admin update
  else
    try_except
      (links <- query_db get_all_links ;;
       match links with
       | _ :: _ =>
           let lines := map link_line links in
           reply_text (message update)
             ("Submitted links:" ++ nl ++ nl ++ concat_lines lines) None
       | [] => reply_text (message update) "No links have been submitted yet." None
       end)
      (fun _ => reply_text (message update) internal_error_text None).

(** ** 6. The main function and the script *)

(** The commands [main] registers a [CommandHandler] for. *)
Inductive Command : Type :=
| cmd_start
| cmd_add_user
| cmd_remove_user
| cmd_list_users
| cmd_submit_link
| cmd_list_links.

(** The callback registered for a command.  [now] is the clock of the
    database when the handler runs. *)
Definition callback (now : string) (c : Command)
    : Update -> list string -> Py unit :=
  match c with
  | cmd_start => start
  | cmd_add_user => add_user
  | cmd_remove_user => remove_user
  | cmd_list_users => list_users
  | cmd_submit_link => submit_link now
  | cmd_list_links => list_links
  end.

(** The commands whose handler starts with [if not is_admin(user_id)]. *)
Definition admin_only (c : Command) : bool :=
  match c with
  | cmd_add_user | cmd_remove_user | cmd_list_users | cmd_list_links => true
  | cmd_start | cmd_submit_link => false
  end.

(** An inbound command: when it is handled, which command, the update and
    [context.args]. *)
Record Event : Type := mkEvent {
  ev_now : string;
  ev_command : Command;
  ev_update : Update;
  ev_args : list string
}.

(** The application runs the callback; an exception that leaves the
    callback is logged by the application, which goes on polling. *)
Definition handle (e : Event) (w : World) : World :=
  snd (callback (ev_now e) (ev_command e) (ev_update e) (ev_args e) w).

Definition run (es : list Event) (w : World) : World :=
  fold_left (fun w e => handle e w) es w.

(** [for admin_id in ADMIN_IDS: db.add_authorized_user(admin_id)] over any
    iteration order [ids] of the set. *)
Definition seed (ids : list Z) (d : Database) : Database :=
  fold_left (fun d admin_id => fst (add_authorized_user admin_id d)) ids d.

(** What the process does to the outside, in order. *)
Inductive Effect : Type :=
| SetupDb
| BuildApplication (token : string)
| AddHandler (c : Command)
| RunPolling.

(** How the process stands after startup: ended with an exit status and a
    message on standard error, or polling for updates with a database. *)
Inductive Outcome : Type :=
| Exited (status : Z) (stderr : string)
| Polling (d : Database).

(** [main()]: seeds the admins, builds the application with the token,
    registers the handlers and polls. *)
Definition main (BOT_TOKEN : string) (d : Database) : list Effect * Outcome :=
  ([BuildApplication BOT_TOKEN;
    AddHandler cmd_start; AddHandler cmd_add_user; AddHandler cmd_remove_user;
    AddHandler cmd_list_users; AddHandler cmd_submit_link;
    AddHandler cmd_list_links; RunPolling],
   Polling (seed ADMIN_IDS d)).

(** The script from its first line: [getenv] is the value of
    [os.getenv("BOT_TOKEN")], [file] the content of [bot_data.db].
    [not BOT_TOKEN] holds for [None] and for the empty string; the
    [raise ValueError] at module level is not caught, so the interpreter
    prints the exception and exits with status 1. *)
Definition script (getenv : option string) (file : Database)
    : list Effect * Outcome :=
  match getenv with
  | Some (String _ _ as token) =>
      let (effects, outcome) := main token file in
      (SetupDb :: effects, outcome)
  | Some EmptyString | None =>
      ([], Exited 1
         ("ValueError: BOT_TOKEN environment variable not set. " ++
          "Please set it before running the bot."))
  end.

(** Whether an effect reaches the transport. *)
Definition is_transport (e : Effect) : bool :=
  match e with
  | BuildApplication _ | AddHandler _ | RunPolling => true
  | SetupDb => false
  end.

(** ** The claim about ties, as the specification words it *)

(** Newest first as the specification has it: [r] goes before [s] when its
    timestamp is greater, or equal with a greater id. *)
Definition spec_before (r s : InviteLink) : bool :=
  Sql.text_gtb (timestamp r) (timestamp s)
  || (String.eqb (timestamp r) (timestamp s) && (id r >? id s)).

Fixpoint spec_insert (r : InviteLink) (sorted : list InviteLink)
  : list InviteLink :=
  match sorted with
  | [] => [r]
  | s :: rest =>
      if spec_before r s then r :: sorted else s :: spec_insert r rest
  end.

(** [listAllLinks] of the specification: descending by timestamp, ties by
    id descending. *)
Definition spec_listAllLinks (d : Database) : list (Z * string * string) :=
  map Sql.columns (fold_right spec_insert [] (invite_links d)).

(** ** Vocabulary of the statements *)

(** The row [add_invite_link] appends. *)
Definition new_row (submitter : Z) (l now : string) (d : Database) : InviteLink :=
  {| id := sqlite_sequence d + 1;
     submitter_id := submitter; link := l; timestamp := now |}.

(** A plain reply to the message [m]. *)
Definition reply_to (m : Message) (t : string) : Reply :=
  {| chat := chat_id m; text := t; parse_mode := None |}.

(** The world after one more reply. *)
Definition with_reply (w : World) (r : Reply) : World :=
  {| db := db w; sent := sent w ++ [r] |}.

(** Whether the first test of [submit_link] on the link passes. *)
Definition invite_link_shape (l : string) : bool :=
  startswith l "https://t.me/joinchat/" || startswith l "https://t.me/+".

(** Not later than: [r] may stand before [s] in a list that is
    descending by timestamp. *)
Definition not_older (r s : InviteLink) : Prop :=
  Sql.text_gtb (timestamp s) (timestamp r) = false.

(** The rows of one timestamp. *)
Definition at_time (t : string) (l : list InviteLink) : list InviteLink :=
  filter (fun r => String.eqb (timestamp r) t) l.

(** The timestamp of a returned tuple. *)
Definition tuple_time (x : Z * string * string) : string := snd x.

(** ** Scenarios *)

(** An update that carries a message of user [uid] in the private chat. *)
Definition from_user (uid : Z) : Update :=
  {| effective_user_id := uid; message := Some {| chat_id := uid |} |}.

(** The bot just started on a fresh database file. *)
Definition started : World :=
  {| db := seed ADMIN_IDS empty_db; sent := [] |}.

Definition noon : string := "2024-05-01 12:00:00".

(** A command of user [uid], handled at [noon]. *)
Definition command_of (uid : Z) (c : Command) (args : list string) : Event :=
  {| ev_now := noon; ev_command := c; ev_update := from_user uid; ev_args := args |}.

(** The second admin removes the first one from the authorized list. *)
Definition admin_removed : World :=
  run [ command_of 987654321 cmd_remove_user ["123456789"] ] started.

(** User 42 is added, and submits two links within the same second. *)
Definition two_links_in_one_second : World :=
  run [ command_of 123456789 cmd_add_user ["42"];
        command_of 42 cmd_submit_link ["https://t.me/+first"];
        command_of 42 cmd_submit_link ["https://t.me/+second"] ]
      started.

(** User 42 is added, submits a link, and is removed. *)
Definition then_removed : list Event :=
  [ command_of 123456789 cmd_add_user ["42"];
    command_of 42 cmd_submit_link ["https://t.me/+first"];
    command_of 123456789 cmd_remove_user ["42"] ].

(** ** Database changes and invariants *)

(** The sender of an event. *)
Definition sender (e : Event) : Z := effective_user_id (ev_update e).

(** The ways a handled event can leave the database: as it was, or after
    the one write the handler makes. *)
Inductive db_step (e : Event) (d : Database) : Database -> Prop :=
| step_same : db_step e d d
| step_add_user (a : string) (n : Z) :
    ev_command e = cmd_add_user ->
    is_admin (sender e) = true ->
    hd_error (ev_args e) = Some a ->
    int a = Some n ->
    db_step e d (fst (add_authorized_user n d))
| step_remove_user (a : string) (n : Z) :
    ev_command e = cmd_remove_user ->
    is_admin (sender e) = true ->
    hd_error (ev_args e) = Some a ->
    int a = Some n ->
    db_step e d (fst (remove_authorized_user n d))
| step_submit_link (l : string) :
    ev_command e = cmd_submit_link ->
    is_authorized (sender e) d = true ->
    hd_error (ev_args e) = Some l ->
    invite_link_shape l = true ->
    db_step e d (add_invite_link (sender e) l (ev_now e) d).

(** The keys of [authorized_users] in rowid order: strictly ascending. *)
Definition table_sorted (d : Database) : Prop :=
  StronglySorted Z.lt (authorized_users d).

(** The ids of [invite_links]: strictly ascending in table order, positive
    when the counter started at zero or above, and never above the
    AUTOINCREMENT counter. *)
Definition links_ok (d : Database) : Prop :=
  StronglySorted (fun r s => id r < id s) (invite_links d)
  /\ Forall (fun r => id r <= sqlite_sequence d) (invite_links d).

(** Rows in ascending order of timestamp, no two equal. *)
Definition strictly_later (r s : InviteLink) : Prop :=
  Sql.text_gtb (timestamp s) (timestamp r) = true.

(** The greeting of [start]. *)
Definition greeting : string :=
  "Hello! I am a bot for managing invite links. " ++
  "Admins can add/remove authorized users and view submitted links.".

(** The reply of [list_users] for a list of identifiers. *)
Definition users_text (users : list Z) : string :=
  match users with
  | [] => "No authorized users found."
  | _ :: _ =>
      "Authorized users:" ++ nl ++ "```" ++ nl ++ join nl (map str users)
      ++ nl ++ "```"
  end.

(** The reply of [list_links] for the tuples of [get_all_links]. *)
Definition links_text (links : list (Z * string * string)) : string :=
  match links with
  | [] => "No links have been submitted yet."
  | _ :: _ => "Submitted links:" ++ nl ++ nl ++ concat_lines (map link_line links)
  end.


(** An update of user [uid] that carries no message. *)
Definition without_message (uid : Z) : Update :=
  {| effective_user_id := uid; message := None |}.

(** ** Proof automation *)

(** Unfolds the control flow of a handler down to its case analysis. *)
Ltac unfold_py :=
  unfold deny_not_admin, args_0, to_int, reply_text, call_db, query_db,
    exec_db, try_except, bind, ret, raise;
  cbv beta iota zeta.

(** Splits on the first test the goal still makes. *)
Ltac case_split :=
  match goal with
  | |- context [match ?x with _ => _ end] =>
      lazymatch x with
      | context [match _ with _ => _ end] => fail
      | _ => destruct x eqn:?
      end
  end.

(** * Properties *)

(** ** The authorized-users table *)

Section AuthorizedUsers.

Implicit Types (u v : Z) (rows : list Z) (d : Database).

Lemma existsb_eqb_In u rows : existsb (Z.eqb u) rows = true <-> In u rows.
Proof.
  rewrite existsb_exists. split.
  - intros [x [Hin Heq]]. apply Z.eqb_eq in Heq. now subst.
  - intros Hin. exists u. split; [assumption | apply Z.eqb_refl].
Qed.

Lemma place_In u v rows : In v (Sql.place u rows) <-> v = u \/ In v rows.
Proof.
  induction rows as [|r rest IH]; simpl.
  - intuition.
  - destruct (u <? r); simpl; [intuition | rewrite IH; intuition].
Qed.


Lemma place_NoDup u rows :
  ~ In u rows -> NoDup rows -> NoDup (Sql.place u rows).
Proof.
  induction rows as [|r rest IH]; simpl; intros Hnot Hnd.
  - constructor; [intros [] | constructor].
  - destruct (u <? r).
    + constructor; [exact Hnot | exact Hnd].
    + inversion Hnd as [|? ? Hr Hrest]; subst.
      constructor.
      * rewrite place_In. intros [-> | Hin]; [apply Hnot; now left | contradiction].
      * apply IH; [intros Hin; apply Hnot; now right | assumption].
Qed.

(** The SELECT of [is_authorized] finds a row exactly when the key is in
    the table. *)
Lemma is_authorized_existsb u d :
  is_authorized u d = existsb (Z.eqb u) (authorized_users d).
Proof.
  unfold is_authorized, Sql.select_1_where, Sql.fetchone.
  induction (authorized_users d) as [|r rest IH]; simpl; [reflexivity|].
  rewrite (Z.eqb_sym u r). destruct (r =? u); simpl; [reflexivity | exact IH].
Qed.

Lemma is_authorized_In u d :
  is_authorized u d = true <-> In u (authorized_users d).
Proof. rewrite is_authorized_existsb. apply existsb_eqb_In. Qed.

Lemma is_authorized_not_In u d :
  is_authorized u d = false <-> ~ In u (authorized_users d).
Proof.
  rewrite <- is_authorized_In. destruct (is_authorized u d); split; congruence.
Qed.

(** [add_authorized_user], case by case. *)
Lemma add_authorized_user_present u d :
  is_authorized u d = true -> add_authorized_user u d = (d, false).
Proof.
  intros H. rewrite is_authorized_existsb in H.
  unfold add_authorized_user, Sql.insert_or_ignore. rewrite H.
  destruct d; reflexivity.
Qed.

Lemma add_authorized_user_absent u d :
  is_authorized u d = false ->
  add_authorized_user u d =
    ({| authorized_users := Sql.place u (authorized_users d);
        invite_links := invite_links d;
        sqlite_sequence := sqlite_sequence d |}, true).
Proof.
  intros H. rewrite is_authorized_existsb in H.
  unfold add_authorized_user, Sql.insert_or_ignore. rewrite H. reflexivity.
Qed.

Lemma add_authorized_user_In u v d :
  In v (authorized_users (fst (add_authorized_user u d)))
  <-> v = u \/ In v (authorized_users d).
Proof.
  destruct (is_authorized u d) eqn:E.
  - rewrite (add_authorized_user_present _ _ E). simpl.
    apply is_authorized_In in E. split; [now right | intros [-> | H]; assumption].
  - rewrite (add_authorized_user_absent _ _ E). simpl. apply place_In.
Qed.

Lemma add_authorized_user_NoDup u d :
  NoDup (authorized_users d) ->
  NoDup (authorized_users (fst (add_authorized_user u d))).
Proof.
  intros Hnd. destruct (is_authorized u d) eqn:E.
  - now rewrite (add_authorized_user_present _ _ E).
  - rewrite (add_authorized_user_absent _ _ E). simpl.
    apply place_NoDup; [now apply is_authorized_not_In | assumption].
Qed.

Lemma add_authorized_user_links u d :
  invite_links (fst (add_authorized_user u d)) = invite_links d
  /\ sqlite_sequence (fst (add_authorized_user u d)) = sqlite_sequence d.
Proof.
  unfold add_authorized_user.
  destruct (Sql.insert_or_ignore u (authorized_users d)). simpl. now split.
Qed.

(** [DELETE ... WHERE user_id = u] keeps the other rows and counts the
    deleted ones. *)
Lemma filter_ne_In u v rows :
  In v (filter (fun r => negb (r =? u)) rows) <-> v <> u /\ In v rows.
Proof.
  rewrite filter_In, negb_true_iff, Z.eqb_neq. tauto.
Qed.


Lemma remove_authorized_user_In u v d :
  In v (authorized_users (fst (remove_authorized_user u d)))
  <-> v <> u /\ In v (authorized_users d).
Proof. unfold remove_authorized_user. simpl. apply filter_ne_In. Qed.


Lemma remove_authorized_user_NoDup u d :
  NoDup (authorized_users d) ->
  NoDup (authorized_users (fst (remove_authorized_user u d))).
Proof. unfold remove_authorized_user. simpl. apply NoDup_filter. Qed.

Lemma remove_authorized_user_links u d :
  invite_links (fst (remove_authorized_user u d)) = invite_links d
  /\ sqlite_sequence (fst (remove_authorized_user u d)) = sqlite_sequence d.
Proof. unfold remove_authorized_user. simpl. now split. Qed.

End AuthorizedUsers.



(** ** Seeding the admins *)

Section Seed.

Implicit Types (ids : list Z) (d : Database).

Lemma seed_cons a ids d :
  seed (a :: ids) d = seed ids (fst (add_authorized_user a d)).
Proof. reflexivity. Qed.

Lemma seed_In ids : forall d v,
  In v (authorized_users (seed ids d)) <-> In v ids \/ In v (authorized_users d).
Proof.
  induction ids as [|a rest IH]; intros d v.
  - simpl. tauto.
  - rewrite seed_cons, IH, add_authorized_user_In. simpl.
    split; intros H; intuition congruence.
Qed.

Lemma seed_NoDup ids : forall d,
  NoDup (authorized_users d) -> NoDup (authorized_users (seed ids d)).
Proof.
  induction ids as [|a rest IH]; intros d Hnd; [exact Hnd|].
  rewrite seed_cons. apply IH, add_authorized_user_NoDup, Hnd.
Qed.

(** Seeding identifiers that are all in the table changes nothing. *)
Lemma seed_present ids : forall d,
  (forall a, In a ids -> is_authorized a d = true) -> seed ids d = d.
Proof.
  induction ids as [|a rest IH]; intros d H; [reflexivity|].
  rewrite seed_cons, add_authorized_user_present by (apply H; now left).
  simpl. apply IH. intros b Hb. apply H. now right.
Qed.

Lemma seed_idempotent ids d : seed ids (seed ids d) = seed ids d.
Proof.
  apply seed_present. intros a Ha.
  apply is_authorized_In, seed_In. now left.
Qed.

Lemma seed_links ids : forall d,
  invite_links (seed ids d) = invite_links d.
Proof.
  induction ids as [|a rest IH]; intros d; [reflexivity|].
  rewrite seed_cons, IH. apply add_authorized_user_links.
Qed.

End Seed.

Lemma is_admin_In (a : Z) : is_admin a = true <-> In a ADMIN_IDS.
Proof. apply existsb_eqb_In. Qed.

(** C6. Let the bootstrap of [main] run on a database whose
    [authorized_users] table has no repeated key, giving [d1], and a second
    time on [d1], giving [d2].  Every configured admin identifier is in the
    authorized table of [d1]; the second run changes nothing ([d2 = d1]);
    no key is repeated in [d2], and each admin identifier occurs exactly
    once. *)
Theorem bootstrap_admins_once (token : string) (d : Database) :
  NoDup (authorized_users d) ->
  let d1 := seed ADMIN_IDS d in
  let d2 := seed ADMIN_IDS d1 in
  snd (main token d) = Polling d1
  /\ snd (main token d1) = Polling d2
  /\ (forall a, is_admin a = true ->
        is_authorized a d1 = true /\ In a (get_authorized_users d1))
  /\ d2 = d1
  /\ NoDup (get_authorized_users d2)
  /\ (forall a, is_admin a = true ->
        count_occ Z.eq_dec (get_authorized_users d2) a = 1%nat).
Proof.
  intros Hnd d1 d2. unfold get_authorized_users.
  assert (Hin : forall a, is_admin a = true -> In a (authorized_users d1)).
  { intros a Ha. apply seed_In. left. now apply is_admin_In. }
  assert (Hsame : d2 = d1) by apply seed_idempotent.
  assert (Hnd1 : NoDup (authorized_users d1)) by now apply seed_NoDup.
  repeat split.
  - apply is_authorized_In. now apply Hin.
  - now apply Hin.
  - exact Hsame.
  - now rewrite Hsame.
  - intros a Ha. rewrite Hsame.
    apply (proj1 (NoDup_count_occ' Z.eq_dec (authorized_users d1)) Hnd1).
    now apply Hin.
Qed.

Lemma bootstrap_admins_once_witness :
  let d1 := seed ADMIN_IDS empty_db in
  authorized_users d1 = [123456789; 987654321]
  /\ seed ADMIN_IDS d1 = d1
  /\ count_occ Z.eq_dec (get_authorized_users (seed ADMIN_IDS d1)) 987654321 = 1%nat.
Proof.
  pose proof (bootstrap_admins_once "token" empty_db (NoDup_nil Z)) as H.
  cbv zeta in H. destruct H as (_ & _ & _ & Hsame & _ & Hcount).
  split; [reflexivity | split; [exact Hsame | apply Hcount; reflexivity]].
Defined.

(** ** The order of [get_all_links] *)

Section Sorter.

Implicit Types (a b c t : string) (r s : InviteLink) (l : list InviteLink).

Lemma text_lt_irrefl a : ~ String_as_OT.lt a a.
Proof. exact (@StrictOrder_Irreflexive _ _ String_as_OT.lt_strorder a). Qed.

Lemma text_lt_trans a b c :
  String_as_OT.lt a b -> String_as_OT.lt b c -> String_as_OT.lt a c.
Proof. exact (@StrictOrder_Transitive _ _ String_as_OT.lt_strorder a b c). Qed.

Lemma text_gtb_lt a b : Sql.text_gtb a b = true <-> String_as_OT.lt b a.
Proof.
  unfold Sql.text_gtb.
  destruct (String_as_OT.compare_spec a b) as [Heq | Hlt | Hgt].
  - unfold String_as_OT.eq in Heq. subst b. split; [discriminate|].
    intros H. exfalso. exact (text_lt_irrefl _ H).
  - split; [discriminate|].
    intros H. exfalso. exact (text_lt_irrefl _ (text_lt_trans _ _ _ Hlt H)).
  - split; [intros _; exact Hgt | reflexivity].
Qed.

Lemma text_gtb_irrefl a : Sql.text_gtb a a = false.
Proof.
  destruct (Sql.text_gtb a a) eqn:E; [|reflexivity].
  apply text_gtb_lt in E. exfalso. exact (text_lt_irrefl _ E).
Qed.

Lemma text_gtb_asym a b : Sql.text_gtb a b = true -> Sql.text_gtb b a = false.
Proof.
  intros H. destruct (Sql.text_gtb b a) eqn:E; [|reflexivity].
  apply text_gtb_lt in H, E. exfalso.
  exact (text_lt_irrefl _ (text_lt_trans _ _ _ H E)).
Qed.

(** [a >= b] and [b >= c] give [a >= c]. *)
Lemma text_ge_trans a b c :
  Sql.text_gtb b a = false -> Sql.text_gtb c b = false ->
  Sql.text_gtb c a = false.
Proof.
  intros Hab Hbc. destruct (Sql.text_gtb c a) eqn:E; [|reflexivity].
  apply text_gtb_lt in E. exfalso.
  destruct (String_as_OT.compare_spec b a) as [Heq | Hlt | Hgt].
  - unfold String_as_OT.eq in Heq. subst b.
    apply text_gtb_lt in E. congruence.
  - assert (Hcb : String_as_OT.lt b c) by exact (text_lt_trans _ _ _ Hlt E).
    apply text_gtb_lt in Hcb. congruence.
  - apply text_gtb_lt in Hgt. congruence.
Qed.

Lemma sorter_insert_perm r l : Permutation (Sql.sorter_insert r l) (r :: l).
Proof.
  induction l as [|s rest IH]; simpl; [reflexivity|].
  destruct (Sql.text_gtb (timestamp s) (timestamp r)); [|reflexivity].
  rewrite IH. apply perm_swap.
Qed.

Lemma order_by_perm l : Permutation (Sql.order_by_timestamp_desc l) l.
Proof.
  induction l as [|r rest IH]; simpl; [reflexivity|].
  rewrite sorter_insert_perm. now constructor.
Qed.

Lemma sorter_insert_sorted r l :
  StronglySorted not_older l -> StronglySorted not_older (Sql.sorter_insert r l).
Proof.
  induction 1 as [|s rest Hsorted IH Hall]; simpl.
  - constructor; constructor.
  - destruct (Sql.text_gtb (timestamp s) (timestamp r)) eqn:E.
    + constructor; [exact IH|].
      apply (Permutation_Forall (Permutation_sym (sorter_insert_perm r rest))).
      constructor; [now apply text_gtb_asym | exact Hall].
    + constructor; [now constructor|].
      constructor; [exact E|].
      apply (Forall_impl _ (fun x Hx => text_ge_trans _ _ _ E Hx) Hall).
Qed.

Lemma order_by_sorted l :
  StronglySorted not_older (Sql.order_by_timestamp_desc l).
Proof.
  induction l as [|r rest IH]; simpl; [constructor|].
  now apply sorter_insert_sorted.
Qed.

Lemma sorter_insert_stable t r l :
  at_time t (Sql.sorter_insert r l) = at_time t (r :: l).
Proof.
  induction l as [|s rest IH]; [reflexivity|].
  cbn [Sql.sorter_insert].
  destruct (Sql.text_gtb (timestamp s) (timestamp r)) eqn:E; [|reflexivity].
  unfold at_time in *. cbn [filter] in *. rewrite IH.
  destruct (String.eqb_spec (timestamp r) t) as [Hr | Hr];
    destruct (String.eqb_spec (timestamp s) t) as [Hs | Hs]; try reflexivity.
  rewrite Hr, Hs, text_gtb_irrefl in E. discriminate.
Qed.

Lemma order_by_stable t l :
  at_time t (Sql.order_by_timestamp_desc l) = at_time t l.
Proof.
  induction l as [|r rest IH]; [reflexivity|].
  cbn [Sql.order_by_timestamp_desc]. rewrite sorter_insert_stable.
  unfold at_time in *. cbn [filter]. now rewrite IH.
Qed.

End Sorter.

Lemma filter_columns (t : string) (l : list InviteLink) :
  filter (fun x => String.eqb (tuple_time x) t) (map Sql.columns l)
  = map Sql.columns (at_time t l).
Proof.
  unfold at_time. induction l as [|r rest IH]; [reflexivity|].
  cbn [map filter]. rewrite IH.
  change (tuple_time (Sql.columns r)) with (timestamp r).
  now destruct (String.eqb (timestamp r) t).
Qed.

(** C2, as the code has it.  [get_all_links] returns the stored links, each
    once, sorted descending by timestamp: every tuple's timestamp is at
    least that of every tuple after it.  The query names the timestamp
    alone: the links of one timestamp come back in the order of the table,
    which is the order of insertion. *)
Theorem get_all_links_order (d : Database) :
  Permutation (get_all_links d) (map Sql.columns (invite_links d))
  /\ StronglySorted
       (fun x y => Sql.text_gtb (tuple_time y) (tuple_time x) = false)
       (get_all_links d)
  /\ (forall t,
        filter (fun x => String.eqb (tuple_time x) t) (get_all_links d)
        = map Sql.columns (at_time t (invite_links d))).
Proof.
  unfold get_all_links. split; [|split].
  - apply Permutation_map, order_by_perm.
  - pose proof (order_by_sorted (invite_links d)) as H.
    induction H as [|r rest Hsorted IH Hall]; simpl; constructor.
    + exact IH.
    + apply Forall_map. exact Hall.
  - intros t. rewrite <- (order_by_stable t (invite_links d)).
    apply filter_columns.
Qed.

(** ** The handlers *)

Lemma add_invite_link_links submitter l now d :
  invite_links (add_invite_link submitter l now d)
  = invite_links d ++ [new_row submitter l now d]
  /\ authorized_users (add_invite_link submitter l now d) = authorized_users d.
Proof. split; reflexivity. Qed.

Lemma invite_link_shape_test l :
  negb (startswith l "https://t.me/joinchat/") && negb (startswith l "https://t.me/+")
  = negb (invite_link_shape l).
Proof. unfold invite_link_shape. now rewrite negb_orb. Qed.

(** [submit_link] with a first argument, case by case. *)
Lemma submit_link_cases now u m l rest w :
  message u = Some m ->
  submit_link now u (l :: rest) w =
    if is_authorized (effective_user_id u) (db w) then
      if invite_link_shape l then
        (Ok tt,
         with_reply
           {| db := add_invite_link (effective_user_id u) l now (db w);
              sent := sent w |}
           (reply_to m "Thank you! Your invite link has been submitted."))
      else
        (Ok tt,
         with_reply w
           (reply_to m "That doesn't look like a valid Telegram invite link."))
    else
      (Ok tt,
       with_reply w
         (reply_to m
            "You are not authorized to submit links. Please contact an admin.")).
Proof.
  intros Hm. unfold submit_link. unfold_py. rewrite Hm.
  destruct (is_authorized (effective_user_id u) (db w)); cbv beta iota zeta.
  - rewrite invite_link_shape_test.
    destruct (invite_link_shape l); reflexivity.
  - reflexivity.
Qed.

(** C3. For a sender in the authorized table whose command arrives as a
    message: when the first argument begins with neither
    ["https://t.me/joinchat/"] nor ["https://t.me/+"], [submit_link] sends
    the validation-error reply and leaves the database as it was; when it
    begins with one of them, the link is appended to [invite_links] under
    the sender's identifier and the confirmation reply is sent. *)
Theorem submit_link_validates_shape
    (now : string) (u : Update) (m : Message) (l : string)
    (rest : list string) (w : World) :
  message u = Some m ->
  is_authorized (effective_user_id u) (db w) = true ->
  let out := submit_link now u (l :: rest) w in
  (startswith l "https://t.me/joinchat/" = false ->
   startswith l "https://t.me/+" = false ->
   fst out = Ok tt
   /\ db (snd out) = db w
   /\ sent (snd out) =
        sent w ++
        [reply_to m "That doesn't look like a valid Telegram invite link."])
  /\ (startswith l "https://t.me/joinchat/" = true
      \/ startswith l "https://t.me/+" = true ->
      fst out = Ok tt
      /\ invite_links (db (snd out)) =
           invite_links (db w) ++ [new_row (effective_user_id u) l now (db w)]
      /\ authorized_users (db (snd out)) = authorized_users (db w)
      /\ sent (snd out) =
           sent w ++
           [reply_to m "Thank you! Your invite link has been submitted."]).
Proof.
  intros Hm Hauth out. subst out.
  rewrite (submit_link_cases _ _ _ _ _ _ Hm), Hauth.
  unfold invite_link_shape. split.
  - intros -> ->. cbn. repeat split.
  - intros [-> | ->]; rewrite ?orb_true_r; cbn; repeat split.
Qed.

(** C1, as the code has it.  [submit_link] does not look at the admin set.
    For a sender in the admin set with a well-formed link, sent as a
    message: if the sender is in the authorized table of the store, the link
    is persisted and confirmed; if the sender is not, the reply is the
    not-authorized one and the database is unchanged.  The bootstrap puts
    every admin in that table. *)
Theorem admin_submit_link_needs_authorization
    (now : string) (u : Update) (m : Message) (l : string)
    (rest : list string) (w : World) :
  is_admin (effective_user_id u) = true ->
  message u = Some m ->
  invite_link_shape l = true ->
  let out := submit_link now u (l :: rest) w in
  (is_authorized (effective_user_id u) (db w) = true ->
   fst out = Ok tt
   /\ invite_links (db (snd out)) =
        invite_links (db w) ++ [new_row (effective_user_id u) l now (db w)]
   /\ sent (snd out) =
        sent w ++ [reply_to m "Thank you! Your invite link has been submitted."])
  /\ (is_authorized (effective_user_id u) (db w) = false ->
      fst out = Ok tt
      /\ db (snd out) = db w
      /\ sent (snd out) =
           sent w ++
           [reply_to m
              "You are not authorized to submit links. Please contact an admin."])
  /\ (forall d, is_authorized (effective_user_id u) (seed ADMIN_IDS d) = true).
Proof.
  intros Hadmin Hm Hshape out. subst out.
  rewrite (submit_link_cases _ _ _ _ _ _ Hm), Hshape.
  split; [|split].
  - intros ->. cbn. repeat split.
  - intros ->. cbn. repeat split.
  - intros d. apply is_authorized_In, seed_In. left. now apply is_admin_In.
Qed.

(** The guard of the admin-only handlers on a sender outside the admin
    set. *)
Lemma admin_only_guard now c u args w :
  admin_only c = true ->
  is_admin (effective_user_id u) = false ->
  callback now c u args w = deny_not_admin u w.
Proof.
  intros Hc Hadmin.
  destruct c; try discriminate Hc; cbn [callback];
    [unfold add_user | unfold remove_user | unfold list_users | unfold list_links];
    rewrite Hadmin; reflexivity.
Qed.

(** C8. For a sender outside the admin set, each admin-only command
    ([add_user], [remove_user], [list_users], [list_links]) leaves the
    database, hence both tables, as it was, and the reply to the message
    that carried the command is the one fixed text, whatever the command,
    the arguments and the database. *)
Theorem non_admin_is_denied
    (now : string) (c : Command) (u : Update) (m : Message)
    (args : list string) (w : World) :
  admin_only c = true ->
  is_admin (effective_user_id u) = false ->
  message u = Some m ->
  let out := callback now c u args w in
  fst out = Ok tt
  /\ db (snd out) = db w
  /\ authorized_users (db (snd out)) = authorized_users (db w)
  /\ invite_links (db (snd out)) = invite_links (db w)
  /\ sent (snd out) =
       sent w ++
       [ {| chat := chat_id m;
            text := "You are not authorized to use this command.";
            parse_mode := None |} ].
Proof.
  intros Hc Hadmin Hm out. subst out.
  rewrite (admin_only_guard _ _ _ _ _ Hc Hadmin).
  unfold_py. rewrite Hm. cbn. repeat split.
Qed.

(** Without a message to reply to, the guard sends nothing and changes
    nothing. *)
Lemma non_admin_without_message now c u args w :
  admin_only c = true ->
  is_admin (effective_user_id u) = false ->
  message u = None ->
  callback now c u args w = (Ok tt, w).
Proof.
  intros Hc Hadmin Hm. rewrite (admin_only_guard _ _ _ _ _ Hc Hadmin).
  unfold_py. now rewrite Hm.
Qed.

(** C10. [add_user], [remove_user] and [submit_link] read [context.args[0]]
    and nothing else of the argument list: with further arguments after the
    first, each does exactly what it does on the first argument alone, to
    the database and in its reply. *)
Theorem only_first_argument_is_read
    (now : string) (u : Update) (a : string) (extra : list string) (w : World) :
  add_user u (a :: extra) w = add_user u [a] w
  /\ remove_user u (a :: extra) w = remove_user u [a] w
  /\ submit_link now u (a :: extra) w = submit_link now u [a] w
  /\ (forall m,
        message u = Some m ->
        is_authorized (effective_user_id u) (db w) = true ->
        invite_link_shape a = true ->
        invite_links (db (snd (submit_link now u (a :: extra) w)))
        = invite_links (db w) ++ [new_row (effective_user_id u) a now (db w)]
        /\ sent (snd (submit_link now u (a :: extra) w))
           = sent w
             ++ [reply_to m "Thank you! Your invite link has been submitted."]).
Proof.
  split; [|split; [|split]].
  - unfold add_user. now destruct (negb (is_admin (effective_user_id u))).
  - unfold remove_user. now destruct (negb (is_admin (effective_user_id u))).
  - unfold submit_link. reflexivity.
  - intros m Hm Hauth Hshape.
    rewrite (submit_link_cases _ _ _ _ _ _ Hm), Hauth, Hshape.
    split; reflexivity.
Qed.

(** C9. When [BOT_TOKEN] is not in the environment, the script ends with
    exit status 1, which is not zero, and the message of the [ValueError];
    it has done nothing before that: the application was not built, no
    handler was registered, polling did not start, the database was not
    opened.  With a token the script reaches polling. *)
Theorem missing_token_terminates (file : Database) :
  fst (script None file) = []
  /\ existsb is_transport (fst (script None file)) = false
  /\ (exists status,
        snd (script None file) =
          Exited status
            ("ValueError: BOT_TOKEN environment variable not set. " ++
             "Please set it before running the bot.")
        /\ status <> 0)
  /\ (forall c rest,
        snd (script (Some (String c rest)) file) = Polling (seed ADMIN_IDS file)
        /\ existsb is_transport (fst (script (Some (String c rest)) file)) = true).
Proof.
  repeat split.
  exists 1. split; [reflexivity | discriminate].
Qed.

(** ** What a handler does to [invite_links] *)

Lemma deny_not_admin_db u w : db (snd (deny_not_admin u w)) = db w.
Proof. unfold_py. now destruct (message u). Qed.

Lemma reply_text_db m t pm w : db (snd (reply_text m t pm w)) = db w.
Proof. unfold_py. now destruct m. Qed.

Lemma start_db u args w : db (snd (start u args w)) = db w.
Proof. unfold start. unfold_py. now destruct (message u). Qed.

Lemma add_user_links u args w :
  invite_links (db (snd (add_user u args w))) = invite_links (db w).
Proof.
  unfold add_user.
  destruct (is_admin (effective_user_id u)); cbn [negb];
    [|now rewrite deny_not_admin_db].
  unfold_py. destruct args as [|a rest]; [now destruct (message u)|].
  destruct (int a) as [n|]; [|now destruct (message u)].
  pose proof (add_authorized_user_links n (db w)) as [Hlinks _].
  destruct (add_authorized_user n (db w)) as [d added]. cbn [fst] in Hlinks.
  destruct added, (message u); cbn; exact Hlinks.
Qed.

Lemma remove_user_links u args w :
  invite_links (db (snd (remove_user u args w))) = invite_links (db w).
Proof.
  unfold remove_user.
  destruct (is_admin (effective_user_id u)); cbn [negb];
    [|now rewrite deny_not_admin_db].
  unfold_py. destruct args as [|a rest]; [now destruct (message u)|].
  destruct (int a) as [n|]; [|now destruct (message u)].
  pose proof (remove_authorized_user_links n (db w)) as [Hlinks _].
  destruct (remove_authorized_user n (db w)) as [d removed]. cbn [fst] in Hlinks.
  destruct removed, (message u); cbn; exact Hlinks.
Qed.

Lemma list_users_db u args w : db (snd (list_users u args w)) = db w.
Proof.
  unfold list_users.
  destruct (is_admin (effective_user_id u)); cbn [negb];
    [|now rewrite deny_not_admin_db].
  unfold_py. now destruct (get_authorized_users (db w)), (message u).
Qed.

Lemma list_links_db u args w : db (snd (list_links u args w)) = db w.
Proof.
  unfold list_links.
  destruct (is_admin (effective_user_id u)); cbn [negb];
    [|now rewrite deny_not_admin_db].
  unfold_py. now destruct (get_all_links (db w)), (message u).
Qed.

(** [submit_link] either leaves the database as it was, or found the sender
    in the authorized table and appended one row under the sender's
    identifier. *)
Lemma submit_link_db now u args w :
  db (snd (submit_link now u args w)) = db w
  \/ (is_authorized (effective_user_id u) (db w) = true
      /\ exists l,
           db (snd (submit_link now u args w))
           = add_invite_link (effective_user_id u) l now (db w)).
Proof.
  unfold submit_link. unfold_py.
  destruct (is_authorized (effective_user_id u) (db w)) eqn:Hauth; cbn [negb];
    [|left; now destruct (message u)].
  destruct args as [|l rest]; [left; now destruct (message u)|].
  destruct (negb (startswith l "https://t.me/joinchat/")
            && negb (startswith l "https://t.me/+"));
    [left; now destruct (message u)|].
  right. split; [reflexivity|]. exists l. now destruct (message u).
Qed.

(** One event: the rows stored before stay, in place and unchanged; a row
    is added only by [submit_link], under the identifier of a sender found
    in the authorized table at that moment. *)
Lemma handle_links e w :
  invite_links (db (handle e w)) = invite_links (db w)
  \/ (ev_command e = cmd_submit_link
      /\ is_authorized (effective_user_id (ev_update e)) (db w) = true
      /\ exists l,
           invite_links (db (handle e w))
           = invite_links (db w)
             ++ [new_row (effective_user_id (ev_update e)) l (ev_now e) (db w)]).
Proof.
  destruct e as [now c u args]. unfold handle. cbn [ev_now ev_command ev_update ev_args].
  destruct c; cbn [callback].
  - left. now rewrite start_db.
  - left. apply add_user_links.
  - left. apply remove_user_links.
  - left. now rewrite list_users_db.
  - destruct (submit_link_db now u args w) as [Hsame | [Hauth [l Hl]]].
    + left. now rewrite Hsame.
    + right. split; [reflexivity|]. split; [exact Hauth|].
      exists l. now rewrite Hl.
  - left. now rewrite list_links_db.
Qed.

Lemma run_app es1 es2 w : run (es1 ++ es2) w = run es2 (run es1 w).
Proof. apply fold_left_app. Qed.

(** Stored rows are never dropped or rewritten by later events. *)
Lemma run_keeps_links es : forall w,
  exists added, invite_links (db (run es w)) = invite_links (db w) ++ added.
Proof.
  induction es as [|e rest IH]; intros w.
  - exists []. cbn. now rewrite app_nil_r.
  - destruct (IH (handle e w)) as [added Hadded].
    cbn [run fold_left] in *. fold (run rest (handle e w)).
    destruct (handle_links e w) as [Hsame | (_ & _ & l & Hl)].
    + exists added. now rewrite Hadded, Hsame.
    + exists ([new_row (effective_user_id (ev_update e)) l (ev_now e) (db w)] ++ added).
      now rewrite Hadded, Hl, <- app_assoc.
Qed.

Lemma InviteLink_eq_dec (x y : InviteLink) : {x = y} + {x <> y}.
Proof. decide equality; first [apply Z.eq_dec | apply string_dec]. Defined.

(** C7. Take any run of the bot and a link stored at its end.  Unless the
    link was stored before the run, it was written by a [submit_link] whose
    sender is the link's [submitter_id] and was in the authorized table at
    that moment, just before the write.  Whatever happens afterwards, in
    particular the removal of the submitter from the authorized table, the
    link stays stored with the same fields. *)
Theorem links_checked_at_insert
    (es : list Event) (w : World) (l : InviteLink) :
  In l (invite_links (db (run es w))) ->
  (In l (invite_links (db w))
   \/ exists es1 e es2,
        es = es1 ++ e :: es2
        /\ ev_command e = cmd_submit_link
        /\ effective_user_id (ev_update e) = submitter_id l
        /\ is_authorized (submitter_id l) (db (run es1 w)) = true
        /\ ~ In l (invite_links (db (run es1 w)))
        /\ In l (invite_links (db (run (es1 ++ [e]) w))))
  /\ (forall later, In l (invite_links (db (run (es ++ later) w))))
  /\ In l (invite_links
             (fst (remove_authorized_user (submitter_id l) (db (run es w)))))
  /\ is_authorized (submitter_id l)
       (fst (remove_authorized_user (submitter_id l) (db (run es w)))) = false.
Proof.
  intros Hin. split; [|split; [|split]].
  - revert Hin. induction es as [|e rest IH] using rev_ind; intros Hin.
    + now left.
    + rewrite run_app in Hin. cbn [run fold_left] in Hin.
      fold (run rest w) in Hin.
      destruct (in_dec InviteLink_eq_dec l (invite_links (db (run rest w))))
        as [Hold | Hnew].
      * destruct (IH Hold) as [H0 | (es1 & e1 & es2 & -> & H)]; [now left|].
        right. exists es1, e1, (es2 ++ [e]).
        split; [now rewrite <- app_assoc | exact H].
      * right. exists rest, e, []. split; [reflexivity|].
        destruct (handle_links e (run rest w)) as [Hsame | (Hc & Hauth & l' & Hl)].
        { rewrite Hsame in Hin. contradiction. }
        rewrite Hl in Hin. apply in_app_or in Hin.
        destruct Hin as [Hin | [<- | []]]; [contradiction|].
        cbn [submitter_id new_row] in *.
        repeat split; try assumption.
        rewrite run_app. cbn [run fold_left]. fold (run rest w).
        rewrite Hl. apply in_or_app. right. now left.
  - intros later. rewrite run_app.
    destruct (run_keeps_links later (run es w)) as [added ->].
    apply in_or_app. now left.
  - now rewrite (proj1 (remove_authorized_user_links _ _)).
  - apply is_authorized_not_In. rewrite remove_authorized_user_In.
    intros [Hne _]. now apply Hne.
Qed.

(** C1 fails on the code: the admin 123456789, removed from the authorized
    table by the other admin, submits a well-formed link; the reply is the
    not-authorized one and no link is stored. *)
Lemma removed_admin_cannot_submit :
  is_admin 123456789 = true
  /\ is_authorized 123456789 (db admin_removed) = false
  /\ invite_link_shape "https://t.me/+abc123" = true
  /\ submit_link noon (from_user 123456789) ["https://t.me/+abc123"] admin_removed
     = (Ok tt,
        {| db := db admin_removed;
           sent := sent admin_removed ++
             [reply_to {| chat_id := 123456789 |}
                "You are not authorized to submit links. Please contact an admin."] |})
  /\ invite_links
       (db (snd (submit_link noon (from_user 123456789)
                   ["https://t.me/+abc123"] admin_removed))) = [].
Proof. vm_compute. repeat split. Qed.

Lemma admin_submit_link_needs_authorization_witness :
  sent (snd (submit_link noon (from_user 123456789) ["https://t.me/+abc123"]
               admin_removed))
  = sent admin_removed ++
    [reply_to {| chat_id := 123456789 |}
       "You are not authorized to submit links. Please contact an admin."]
  /\ invite_links
       (db (snd (submit_link noon (from_user 123456789) ["https://t.me/+abc123"]
                   started)))
     = [new_row 123456789 "https://t.me/+abc123" noon (db started)].
Proof.
  split.
  - destruct (admin_submit_link_needs_authorization noon (from_user 123456789)
                {| chat_id := 123456789 |} "https://t.me/+abc123" [] admin_removed
                eq_refl eq_refl eq_refl) as (_ & Hdenied & _).
    destruct (Hdenied eq_refl) as (_ & _ & Hsent). exact Hsent.
  - destruct (admin_submit_link_needs_authorization noon (from_user 123456789)
                {| chat_id := 123456789 |} "https://t.me/+abc123" [] started
                eq_refl eq_refl eq_refl) as (Hok & _).
    destruct (Hok eq_refl) as (_ & Hlinks & _). exact Hlinks.
Defined.

(** C2 fails on the code: two links submitted within one second come back
    with the older one (id 1) first, where the specification's order puts
    the newer one (id 2) first. *)
Lemma ties_come_back_oldest_first :
  invite_links (db two_links_in_one_second)
  = [ {| id := 1; submitter_id := 42; link := "https://t.me/+first";
         timestamp := noon |};
      {| id := 2; submitter_id := 42; link := "https://t.me/+second";
         timestamp := noon |} ]
  /\ get_all_links (db two_links_in_one_second)
     = [ (42, "https://t.me/+first", noon); (42, "https://t.me/+second", noon) ]
  /\ spec_listAllLinks (db two_links_in_one_second)
     = [ (42, "https://t.me/+second", noon); (42, "https://t.me/+first", noon) ]
  /\ get_all_links (db two_links_in_one_second)
     <> spec_listAllLinks (db two_links_in_one_second).
Proof. vm_compute. repeat split. discriminate. Qed.

Lemma submit_link_validates_shape_witness :
  sent (snd (submit_link noon (from_user 123456789) ["https://example.com/x"]
               started))
  = [reply_to {| chat_id := 123456789 |}
       "That doesn't look like a valid Telegram invite link."]
  /\ invite_links
       (db (snd (submit_link noon (from_user 123456789)
                   ["https://t.me/joinchat/xyz"] started)))
     = [new_row 123456789 "https://t.me/joinchat/xyz" noon (db started)].
Proof.
  split.
  - destruct (submit_link_validates_shape noon (from_user 123456789)
                {| chat_id := 123456789 |} "https://example.com/x" [] started
                eq_refl eq_refl) as (Hbad & _).
    destruct (Hbad eq_refl eq_refl) as (_ & _ & Hsent). exact Hsent.
  - destruct (submit_link_validates_shape noon (from_user 123456789)
                {| chat_id := 123456789 |} "https://t.me/joinchat/xyz" [] started
                eq_refl eq_refl) as (_ & Hgood).
    destruct (Hgood (or_introl eq_refl)) as (_ & Hlinks & _). exact Hlinks.
Defined.

Lemma non_admin_is_denied_witness :
  db (snd (callback noon cmd_list_users (from_user 42) [] two_links_in_one_second))
  = db two_links_in_one_second
  /\ sent (snd (callback noon cmd_add_user (from_user 42) ["42"] started))
     = [ {| chat := 42; text := "You are not authorized to use this command.";
            parse_mode := None |} ].
Proof.
  split.
  - destruct (non_admin_is_denied noon cmd_list_users (from_user 42)
                {| chat_id := 42 |} [] two_links_in_one_second
                eq_refl eq_refl eq_refl) as (_ & Hdb & _). exact Hdb.
  - destruct (non_admin_is_denied noon cmd_add_user (from_user 42)
                {| chat_id := 42 |} ["42"] started
                eq_refl eq_refl eq_refl) as (_ & _ & _ & _ & Hsent). exact Hsent.
Defined.

Lemma links_checked_at_insert_witness :
  let l := new_row 42 "https://t.me/+first" noon (db started) in
  is_authorized 42 (db (run then_removed started)) = false
  /\ In l (invite_links (db (run then_removed started)))
  /\ forall later, In l (invite_links (db (run (then_removed ++ later) started))).
Proof.
  cbv zeta.
  assert (Hin : In (new_row 42 "https://t.me/+first" noon (db started))
                   (invite_links (db (run then_removed started))))
    by (left; reflexivity).
  split; [reflexivity | split; [exact Hin|]].
  exact (proj1 (proj2 (links_checked_at_insert then_removed started _ Hin))).
Defined.

(** ** The scenarios of the specification, run on the model *)

(** Sender 42, not authorized, submits a link: not authorized, nothing
    stored. *)
Example scenario_unauthorized_submit :
  handle (command_of 42 cmd_submit_link ["https://t.me/+abc123"]) started
  = {| db := db started;
       sent := [reply_to {| chat_id := 42 |}
                  "You are not authorized to submit links. Please contact an admin."] |}.
Proof. reflexivity. Qed.

(** The admin adds 42, 42 submits a link, the admin lists the links; then
    the admin removes 42, whose next submission is refused. *)
Example scenario_add_submit_list_remove :
  let w := run [ command_of 123456789 cmd_add_user ["42"];
                 command_of 42 cmd_submit_link ["https://t.me/joinchat/xyz"];
                 command_of 123456789 cmd_list_links [];
                 command_of 123456789 cmd_remove_user ["42"];
                 command_of 42 cmd_submit_link ["https://t.me/joinchat/xyz"] ]
               started in
  map text (sent w)
  = [ "User with ID `42` has been added to the authorized list.";
      "Thank you! Your invite link has been submitted.";
      "Submitted links:" ++ nl ++ nl ++
      "- User ID: 42" ++ nl ++
      "  Link: https://t.me/joinchat/xyz" ++ nl ++
      "  Time: 2024-05-01 12:00:00" ++ nl;
      "User with ID `42` has been removed from the authorized list.";
      "You are not authorized to submit links. Please contact an admin." ]%string
  /\ get_all_links (db w) = [ (42, "https://t.me/joinchat/xyz", noon) ]
  /\ authorized_users (db w) = [123456789; 987654321].
Proof. vm_compute. repeat split. Qed.

(** The admin runs [add_user notanumber]: the usage hint, table unchanged. *)
Example scenario_add_user_not_a_number :
  handle (command_of 123456789 cmd_add_user ["notanumber"]) started
  = {| db := db started;
       sent := [ {| chat := 123456789; text := "Usage: `/add_user <user_id>`";
                    parse_mode := Some MARKDOWN |} ] |}.
Proof. reflexivity. Qed.

(** * Further properties of the code *)

(** ** The two tables *)

Lemma bool_eq_iff (a b : bool) : (a = true <-> b = true) -> a = b.
Proof. destruct a, b; intros [H1 H2]; auto; symmetry; auto. Qed.

Lemma filter_ne_place (u : Z) (rows : list Z) :
  ~ In u rows -> filter (fun r => negb (r =? u)) (Sql.place u rows) = rows.
Proof.
  induction rows as [|r rest IH]; intros Hnot; simpl.
  - now rewrite Z.eqb_refl.
  - assert (Hr : (r =? u) = false) by (apply Z.eqb_neq; intros ->; apply Hnot; now left).
    destruct (u <? r); simpl.
    + rewrite Z.eqb_refl, Hr. simpl. f_equal.
      clear IH. induction rest as [|x xs IHx]; [reflexivity|]. simpl.
      assert (Hx : (x =? u) = false)
        by (apply Z.eqb_neq; intros ->; apply Hnot; right; now left).
      rewrite Hx. simpl. f_equal. apply IHx.
      intros [H | H]; apply Hnot; [now left | right; now right].
    + rewrite Hr. simpl. f_equal. apply IH. intros H. apply Hnot. now right.
Qed.

Lemma filter_ne_all (u : Z) (rows : list Z) :
  Forall (fun r => u < r) rows -> filter (fun r => negb (r =? u)) rows = rows.
Proof.
  induction 1 as [|r rest Hr _ IH]; simpl; [reflexivity|].
  assert (E : (r =? u) = false) by (apply Z.eqb_neq; lia).
  rewrite E. simpl. now rewrite IH.
Qed.

Lemma place_ne_filter (u : Z) (rows : list Z) :
  StronglySorted Z.lt rows -> In u rows ->
  Sql.place u (filter (fun r => negb (r =? u)) rows) = rows.
Proof.
  induction 1 as [|r rest Hsorted IH Hall]; intros Hin; [contradiction|].
  simpl. destruct (Z.eqb_spec r u) as [-> | Hne]; simpl.
  - rewrite (filter_ne_all _ _ Hall).
    destruct rest as [|x xs]; [reflexivity|]. simpl.
    inversion Hall as [|? ? Hx _]; subst.
    apply Z.ltb_lt in Hx. now rewrite Hx.
  - destruct Hin as [Heq | Hin]; [contradiction|].
    assert (Hlt : r < u) by (rewrite Forall_forall in Hall; now apply Hall).
    assert (E : (u <? r) = false) by (apply Z.ltb_ge; lia).
    rewrite E. f_equal. now apply IH.
Qed.

Lemma place_sorted (u : Z) (rows : list Z) :
  ~ In u rows -> StronglySorted Z.lt rows -> StronglySorted Z.lt (Sql.place u rows).
Proof.
  intros Hnot Hsorted. induction Hsorted as [|r rest Hsorted IH Hall]; simpl.
  - constructor; constructor.
  - destruct (Z.ltb_spec u r) as [Hlt | Hge].
    + constructor; [now constructor|].
      constructor; [exact Hlt|].
      apply (Forall_impl _ (fun x (Hx : r < x) => Z.lt_trans _ _ _ Hlt Hx) Hall).
    + assert (Hne : r <> u) by (intros ->; apply Hnot; now left).
      constructor.
      * apply IH. intros H. apply Hnot. now right.
      * apply Forall_forall. intros x Hx. apply place_In in Hx.
        destruct Hx as [-> | Hx]; [lia|].
        rewrite Forall_forall in Hall. now apply Hall.
  Qed.

Lemma filter_sorted (f : Z -> bool) (rows : list Z) :
  StronglySorted Z.lt rows -> StronglySorted Z.lt (filter f rows).
Proof.
  induction 1 as [|r rest Hsorted IH Hall]; simpl; [constructor|].
  destruct (f r); [|exact IH].
  constructor; [exact IH|].
  apply Forall_forall. intros x Hx. apply filter_In in Hx.
  rewrite Forall_forall in Hall. now apply Hall.
Qed.

Lemma sorted_NoDup (rows : list Z) : StronglySorted Z.lt rows -> NoDup rows.
Proof.
  induction 1 as [|r rest Hsorted IH Hall]; constructor; [|exact IH].
  intros Hin. rewrite Forall_forall in Hall. specialize (Hall _ Hin). lia.
Qed.

Lemma add_authorized_user_sorted (u : Z) (d : Database) :
  table_sorted d -> table_sorted (fst (add_authorized_user u d)).
Proof.
  unfold table_sorted. intros Hs. destruct (is_authorized u d) eqn:E.
  - now rewrite (add_authorized_user_present _ _ E).
  - rewrite (add_authorized_user_absent _ _ E). simpl.
    apply place_sorted; [now apply is_authorized_not_In | exact Hs].
Qed.

Lemma remove_authorized_user_sorted (u : Z) (d : Database) :
  table_sorted d -> table_sorted (fst (remove_authorized_user u d)).
Proof. unfold table_sorted, remove_authorized_user. simpl. apply filter_sorted. Qed.

(** X1. Adding or removing the identifier [u] does not change whether any
    other identifier [v] is authorized. *)
Theorem other_users_keep_their_status (u v : Z) (d : Database) :
  v <> u ->
  is_authorized v (fst (add_authorized_user u d)) = is_authorized v d
  /\ is_authorized v (fst (remove_authorized_user u d)) = is_authorized v d.
Proof.
  intros Hne. split; apply bool_eq_iff; rewrite !is_authorized_In.
  - rewrite add_authorized_user_In. tauto.
  - rewrite remove_authorized_user_In. tauto.
Qed.

Lemma other_users_keep_their_status_witness :
  is_authorized 987654321 (fst (remove_authorized_user 123456789 (db started)))
  = is_authorized 987654321 (db started).
Proof.
  apply (other_users_keep_their_status 123456789 987654321 (db started)).
  discriminate.
Defined.

(** X2. Removing an identifier right after adding it gives back the
    database as it was, when the identifier was not authorized before. *)
Theorem add_then_remove_restores (u : Z) (d : Database) :
  is_authorized u d = false ->
  fst (remove_authorized_user u (fst (add_authorized_user u d))) = d.
Proof.
  intros E. rewrite (add_authorized_user_absent _ _ E).
  unfold remove_authorized_user, Sql.delete_where. cbn [fst authorized_users invite_links sqlite_sequence].
  rewrite filter_ne_place by now apply is_authorized_not_In.
  now destruct d.
Qed.

Lemma add_then_remove_restores_witness :
  fst (remove_authorized_user 42 (fst (add_authorized_user 42 (db started))))
  = db started.
Proof. apply (add_then_remove_restores 42 (db started)). reflexivity. Defined.

(** X3. On a table kept in key order, adding an identifier right after
    removing it gives back the database as it was, when the identifier was
    authorized before: the row returns to its place. *)
Theorem remove_then_add_restores (u : Z) (d : Database) :
  table_sorted d ->
  is_authorized u d = true ->
  fst (add_authorized_user u (fst (remove_authorized_user u d))) = d.
Proof.
  intros Hs E.
  assert (Hgone : is_authorized u (fst (remove_authorized_user u d)) = false).
  { apply is_authorized_not_In. rewrite remove_authorized_user_In.
    intros [Hne _]. now apply Hne. }
  rewrite (add_authorized_user_absent _ _ Hgone).
  unfold remove_authorized_user, Sql.delete_where.
  cbn [fst authorized_users invite_links sqlite_sequence].
  rewrite place_ne_filter; [now destruct d | exact Hs | now apply is_authorized_In].
Qed.

Lemma remove_then_add_restores_witness :
  fst (add_authorized_user 123456789
         (fst (remove_authorized_user 123456789 (db started))))
  = db started.
Proof.
  apply (remove_then_add_restores 123456789 (db started)).
  - repeat constructor.
  - reflexivity.
Defined.

(** ** What a handler writes *)

(** The database after [add_user], whatever becomes of the reply. *)
Lemma add_user_db u args w :
  db (snd (add_user u args w)) =
    if is_admin (effective_user_id u) then
      match args with
      | a :: _ =>
          match int a with
          | Some n => fst (add_authorized_user n (db w))
          | None => db w
          end
      | [] => db w
      end
    else db w.
Proof.
  unfold add_user.
  destruct (is_admin (effective_user_id u)); cbn [negb];
    [|now rewrite deny_not_admin_db].
  unfold_py. destruct args as [|a rest]; [now destruct (message u)|].
  destruct (int a) as [n|]; [|now destruct (message u)].
  destruct (add_authorized_user n (db w)) as [d added].
  now destruct added, (message u).
Qed.

(** The database after [remove_user], whatever becomes of the reply. *)
Lemma remove_user_db u args w :
  db (snd (remove_user u args w)) =
    if is_admin (effective_user_id u) then
      match args with
      | a :: _ =>
          match int a with
          | Some n => fst (remove_authorized_user n (db w))
          | None => db w
          end
      | [] => db w
      end
    else db w.
Proof.
  unfold remove_user.
  destruct (is_admin (effective_user_id u)); cbn [negb];
    [|now rewrite deny_not_admin_db].
  unfold_py. destruct args as [|a rest]; [now destruct (message u)|].
  destruct (int a) as [n|]; [|now destruct (message u)].
  destruct (remove_authorized_user n (db w)) as [d removed].
  now destruct removed, (message u).
Qed.

(** The database after [submit_link], whatever becomes of the reply. *)
Lemma submit_link_db_cases now u args w :
  db (snd (submit_link now u args w)) =
    if is_authorized (effective_user_id u) (db w) then
      match args with
      | l :: _ =>
          if invite_link_shape l
          then add_invite_link (effective_user_id u) l now (db w)
          else db w
      | [] => db w
      end
    else db w.
Proof.
  unfold submit_link. unfold_py.
  destruct (is_authorized (effective_user_id u) (db w)); cbn [negb];
    [|now destruct (message u)].
  destruct args as [|l rest]; [now destruct (message u)|].
  rewrite invite_link_shape_test.
  now destruct (invite_link_shape l), (message u).
Qed.

Lemma handle_db_step (e : Event) (w : World) :
  db_step e (db w) (db (handle e w)).
Proof.
  destruct e as [now c u args]. unfold handle.
  cbn [ev_now ev_command ev_update ev_args].
  destruct c; cbn [callback].
  - rewrite start_db. constructor.
  - rewrite add_user_db.
    destruct (is_admin (effective_user_id u)) eqn:Ha; [|constructor].
    destruct args as [|a rest]; [constructor|].
    destruct (int a) as [n|] eqn:Hn; [|constructor].
    now apply (step_add_user _ _ a n).
  - rewrite remove_user_db.
    destruct (is_admin (effective_user_id u)) eqn:Ha; [|constructor].
    destruct args as [|a rest]; [constructor|].
    destruct (int a) as [n|] eqn:Hn; [|constructor].
    now apply (step_remove_user _ _ a n).
  - rewrite list_users_db. constructor.
  - rewrite submit_link_db_cases.
    destruct (is_authorized (effective_user_id u) (db w)) eqn:Ha; [|constructor].
    destruct args as [|l rest]; [constructor|].
    destruct (invite_link_shape l) eqn:Hl; [|constructor].
    now apply (step_submit_link
      {| ev_now := now; ev_command := cmd_submit_link;
         ev_update := u; ev_args := l :: rest |} (db w) l).
  - rewrite list_links_db. constructor.
Qed.

(** A property of the database that each write keeps holds along any run. *)
Lemma run_invariant (P : Database -> Prop) :
  (forall e d d', db_step e d d' -> P d -> P d') ->
  forall es w, P (db w) -> P (db (run es w)).
Proof.
  intros Hstep es. induction es as [|e rest IH]; intros w Hw; [exact Hw|].
  cbn [run fold_left]. fold (run rest (handle e w)).
  apply IH. apply (Hstep e (db w)); [apply handle_db_step | exact Hw].
Qed.

Lemma add_invite_link_ok submitter l now d :
  links_ok d -> links_ok (add_invite_link submitter l now d).
Proof.
  intros [Hsorted Hbound]. unfold links_ok, add_invite_link.
  cbn [invite_links sqlite_sequence]. split.
  - induction Hsorted as [|r rest Hs IH Hall]; cbn [app].
    + constructor; constructor.
    + inversion Hbound as [|? ? Hr Hrest]; subst.
      constructor; [now apply IH|].
      apply Forall_app. split; [exact Hall|].
      constructor; [cbn [id]; lia | constructor].
  - apply Forall_app. split.
    + apply (Forall_impl _ (fun r (Hr : id r <= sqlite_sequence d) =>
                              Z.le_trans _ _ _ Hr (Z.le_succ_diag_r _)) Hbound).
    + constructor; [cbn [id]; lia | constructor].
Qed.

Lemma db_step_links_ok e d d' : db_step e d d' -> links_ok d -> links_ok d'.
Proof.
  unfold links_ok at 2.
  destruct 1 as [|a n _ _ _ _|a n _ _ _ _|l _ _ _ _]; intros Hok.
  - exact Hok.
  - unfold links_ok.
    destruct (add_authorized_user_links n d) as [-> ->]. exact Hok.
  - unfold links_ok.
    destruct (remove_authorized_user_links n d) as [-> ->]. exact Hok.
  - now apply add_invite_link_ok.
Qed.

Lemma db_step_sorted e d d' : db_step e d d' -> table_sorted d -> table_sorted d'.
Proof.
  destruct 1 as [|a n _ _ _ _|a n _ _ _ _|l _ _ _ _]; intros Hs.
  - exact Hs.
  - now apply add_authorized_user_sorted.
  - now apply remove_authorized_user_sorted.
  - exact Hs.
Qed.

(** X4. Along any run of the bot from a table in key order, the
    [authorized_users] table stays in key order, so [get_authorized_users]
    never returns an identifier twice. *)
Theorem run_keeps_users_unique (es : list Event) (w : World) :
  table_sorted (db w) ->
  table_sorted (db (run es w))
  /\ NoDup (get_authorized_users (db (run es w))).
Proof.
  intros Hs.
  assert (H : table_sorted (db (run es w)))
    by (apply (run_invariant table_sorted db_step_sorted); exact Hs).
  split; [exact H | apply sorted_NoDup, H].
Qed.

Lemma run_keeps_users_unique_witness :
  NoDup (get_authorized_users (db (run then_removed started))).
Proof.
  apply (run_keeps_users_unique then_removed started). repeat constructor.
Defined.

(** X5. Along any run of the bot, the ids of [invite_links] stay strictly
    ascending in table order and bounded by the AUTOINCREMENT counter: no id
    is given twice, and a later link has a greater id. *)
Theorem run_keeps_link_ids_ascending (es : list Event) (w : World) :
  links_ok (db w) ->
  links_ok (db (run es w))
  /\ NoDup (map id (invite_links (db (run es w)))).
Proof.
  intros Hok.
  assert (H : links_ok (db (run es w)))
    by (apply (run_invariant links_ok db_step_links_ok); exact Hok).
  split; [exact H|]. destruct H as [Hsorted _].
  induction Hsorted as [|r rest Hs IH Hall]; cbn [map]; constructor; [|exact IH].
  intros Hin. apply in_map_iff in Hin. destruct Hin as (s & Heq & Hs').
  rewrite Forall_forall in Hall. specialize (Hall _ Hs'). lia.
Qed.

Lemma run_keeps_link_ids_ascending_witness :
  map id (invite_links (db two_links_in_one_second)) = [1; 2]
  /\ NoDup (map id (invite_links (db two_links_in_one_second))).
Proof.
  split; [reflexivity|].
  apply (run_keeps_link_ids_ascending
           [ command_of 123456789 cmd_add_user ["42"];
             command_of 42 cmd_submit_link ["https://t.me/+first"];
             command_of 42 cmd_submit_link ["https://t.me/+second"] ] started).
  split; constructor.
Defined.

(** X6. No command of a sender outside the admin set changes the
    [authorized_users] table, and no command of a sender outside that table
    changes [invite_links]. *)
Theorem tables_change_only_for_the_entitled (e : Event) (w : World) :
  (is_admin (sender e) = false ->
   authorized_users (db (handle e w)) = authorized_users (db w))
  /\ (is_authorized (sender e) (db w) = false ->
      invite_links (db (handle e w)) = invite_links (db w)).
Proof.
  split; intros Hno; destruct (handle_db_step e w)
    as [|a n _ Ha _ _|a n _ Ha _ _|l _ Hauth _ _]; try reflexivity; try congruence.
  apply add_authorized_user_links.
Qed.

(** ** Reading the links back *)

Lemma sorter_insert_last (r : InviteLink) (l : list InviteLink) :
  Forall (strictly_later r) l -> Sql.sorter_insert r l = l ++ [r].
Proof.
  induction 1 as [|s rest Hs _ IH]; [reflexivity|].
  cbn [Sql.sorter_insert app]. unfold strictly_later in Hs.
  now rewrite Hs, IH.
Qed.

Lemma order_by_rev (l : list InviteLink) :
  StronglySorted strictly_later l -> Sql.order_by_timestamp_desc l = rev l.
Proof.
  induction 1 as [|r rest Hsorted IH Hall]; [reflexivity|].
  cbn [Sql.order_by_timestamp_desc rev]. rewrite IH.
  apply sorter_insert_last, Forall_rev, Hall.
Qed.

(** X7. [get_all_links] loses and invents nothing: it returns as many
    tuples as there are rows, the tuple of every stored row is among them,
    and a link just stored by [add_invite_link] is read back with its
    submitter and timestamp. *)
Theorem get_all_links_complete (d : Database) :
  List.length (get_all_links d) = List.length (invite_links d)
  /\ (forall r, In r (invite_links d) -> In (Sql.columns r) (get_all_links d))
  /\ (forall x, In x (get_all_links d) ->
        exists r, In r (invite_links d) /\ x = Sql.columns r)
  /\ (forall submitter l now,
        In (submitter, l, now)
           (get_all_links (add_invite_link submitter l now d))).
Proof.
  assert (Hperm : forall d', Permutation (get_all_links d')
                               (map Sql.columns (invite_links d')))
    by (intros d'; apply Permutation_map, order_by_perm).
  split; [|split; [|split]].
  - rewrite (Permutation_length (Hperm d)). apply length_map.
  - intros r Hr. apply (Permutation_in _ (Permutation_sym (Hperm d))).
    now apply in_map.
  - intros x Hx. apply (Permutation_in _ (Hperm d)) in Hx.
    apply in_map_iff in Hx. destruct Hx as (r & Heq & Hr). now exists r.
  - intros submitter l now.
    apply (Permutation_in _ (Permutation_sym (Hperm _))).
    cbn [add_invite_link invite_links]. rewrite map_app.
    apply in_or_app. right. now left.
Qed.

(** X8. When every row was inserted at a strictly later timestamp than the
    rows before it, [get_all_links] returns the rows in the reverse of the
    insertion order: the newest link first. *)
Theorem get_all_links_newest_first (d : Database) :
  StronglySorted strictly_later (invite_links d) ->
  get_all_links d = rev (map Sql.columns (invite_links d)).
Proof.
  intros Hs. unfold get_all_links. rewrite order_by_rev by exact Hs.
  apply map_rev.
Qed.

Lemma get_all_links_newest_first_witness :
  get_all_links
    (add_invite_link 42 "https://t.me/+second" "2024-05-01 12:00:01"
       (add_invite_link 42 "https://t.me/+first" "2024-05-01 12:00:00" empty_db))
  = [ (42, "https://t.me/+second", "2024-05-01 12:00:01");
      (42, "https://t.me/+first", "2024-05-01 12:00:00") ].
Proof.
  apply (get_all_links_newest_first
           (add_invite_link 42 "https://t.me/+second" "2024-05-01 12:00:01"
              (add_invite_link 42 "https://t.me/+first" "2024-05-01 12:00:00"
                 empty_db))).
  repeat constructor.
Defined.

(** X9. [submit_link] does not look for the link among the stored ones: an
    authorized sender who submits the same well-formed link twice gets two
    rows, with consecutive ids. *)
Theorem submit_link_twice_stores_twice
    (now1 now2 : string) (u : Update) (l : string)
    (rest1 rest2 : list string) (w : World) :
  is_authorized (effective_user_id u) (db w) = true ->
  invite_link_shape l = true ->
  let w1 := snd (submit_link now1 u (l :: rest1) w) in
  let w2 := snd (submit_link now2 u (l :: rest2) w1) in
  invite_links (db w2) =
    invite_links (db w)
    ++ [ {| id := sqlite_sequence (db w) + 1;
            submitter_id := effective_user_id u; link := l; timestamp := now1 |};
         {| id := sqlite_sequence (db w) + 2;
            submitter_id := effective_user_id u; link := l; timestamp := now2 |} ].
Proof.
  intros Hauth Hshape w1 w2.
  assert (H1 : db w1 = add_invite_link (effective_user_id u) l now1 (db w)).
  { subst w1. now rewrite submit_link_db_cases, Hauth, Hshape. }
  assert (H2 : db w2 = add_invite_link (effective_user_id u) l now2 (db w1)).
  { subst w2. rewrite submit_link_db_cases, Hshape.
    assert (Hstill : is_authorized (effective_user_id u) (db w1) = true)
      by (rewrite H1; exact Hauth).
    now rewrite Hstill. }
  rewrite H2, H1. cbn [add_invite_link invite_links sqlite_sequence].
  rewrite <- app_assoc. cbn [app]. do 4 f_equal. lia.
Qed.

Lemma submit_link_twice_stores_twice_witness :
  map link
    (invite_links
       (db (snd (submit_link noon (from_user 123456789) ["https://t.me/+abc123"]
                   (snd (submit_link noon (from_user 123456789)
                           ["https://t.me/+abc123"] started))))))
  = ["https://t.me/+abc123"; "https://t.me/+abc123"].
Proof.
  rewrite (submit_link_twice_stores_twice noon noon (from_user 123456789)
             "https://t.me/+abc123" [] [] started eq_refl eq_refl).
  reflexivity.
Defined.

(** ** The admin commands, carried out *)







(** X13. An admin's [list_users] changes nothing and answers with the
    identifiers of the authorized table, one per line inside a Markdown
    code block, in the order [get_authorized_users] returns them; on an
    empty table the answer is the plain no-users line. *)
Theorem list_users_by_admin
    (u : Update) (m : Message) (args : list string) (w : World) :
  is_admin (effective_user_id u) = true ->
  message u = Some m ->
  list_users u args w
  = (Ok tt,
     with_reply w
       {| chat := chat_id m;
          text := users_text (get_authorized_users (db w));
          parse_mode :=
            match get_authorized_users (db w) with
            | [] => None
            | _ :: _ => Some MARKDOWN
            end |}).
Proof.
  intros Hadmin Hm. unfold list_users. rewrite Hadmin. cbn [negb].
  unfold_py. rewrite Hm.
  now destruct (get_authorized_users (db w)).
Qed.

Lemma list_users_by_admin_witness :
  map text (sent (snd (list_users (from_user 123456789) [] started)))
  = [ ("Authorized users:" ++ nl ++ "```" ++ nl ++ "123456789" ++ nl
       ++ "987654321" ++ nl ++ "```")%string ].
Proof.
  rewrite (list_users_by_admin (from_user 123456789) {| chat_id := 123456789 |}
             [] started eq_refl eq_refl).
  reflexivity.
Defined.

(** X14. An admin's [list_links] changes nothing and answers in plain text
    with one entry per tuple of [get_all_links], in that order, each giving
    the submitter, the link and the time; without any link the answer is
    the no-links line. *)
Theorem list_links_by_admin
    (u : Update) (m : Message) (args : list string) (w : World) :
  is_admin (effective_user_id u) = true ->
  message u = Some m ->
  list_links u args w
  = (Ok tt, with_reply w (reply_to m (links_text (get_all_links (db w))))).
Proof.
  intros Hadmin Hm. unfold list_links. rewrite Hadmin. cbn [negb].
  unfold_py. rewrite Hm.
  now destruct (get_all_links (db w)).
Qed.

Lemma list_links_by_admin_witness :
  map text
    (sent (snd (list_links (from_user 123456789) [] two_links_in_one_second)))
  = map text (sent two_links_in_one_second)
    ++ [ ("Submitted links:" ++ nl ++ nl
          ++ "- User ID: 42" ++ nl ++ "  Link: https://t.me/+first" ++ nl
          ++ "  Time: 2024-05-01 12:00:00" ++ nl
          ++ "- User ID: 42" ++ nl ++ "  Link: https://t.me/+second" ++ nl
          ++ "  Time: 2024-05-01 12:00:00" ++ nl)%string ].
Proof.
  rewrite (list_links_by_admin (from_user 123456789) {| chat_id := 123456789 |}
             [] two_links_in_one_second eq_refl eq_refl).
  reflexivity.
Defined.

(** ** Replies and failures *)

(** X15. [start], [list_users] and [list_links] never write: whoever sends
    them, with whatever arguments, with or without a message to answer, the
    database afterwards is the database before. *)
Theorem reading_commands_do_not_write
    (now : string) (u : Update) (args : list string) (w : World) :
  db (snd (callback now cmd_start u args w)) = db w
  /\ db (snd (callback now cmd_list_users u args w)) = db w
  /\ db (snd (callback now cmd_list_links u args w)) = db w.
Proof.
  cbn [callback]. split; [|split].
  - apply start_db.
  - apply list_users_db.
  - apply list_links_db.
Qed.

(** X16. A command that arrives as a message is always answered, once, in
    the chat of that message, and no exception leaves the handler: the
    argument and permission errors are turned into replies. *)
Theorem every_message_gets_one_reply
    (now : string) (c : Command) (u : Update) (m : Message)
    (args : list string) (w : World) :
  message u = Some m ->
  let out := callback now c u args w in
  fst out = Ok tt
  /\ exists r, sent (snd out) = sent w ++ [r] /\ chat r = chat_id m.
Proof.
  intros Hm out. subst out.
  destruct c; cbn [callback];
    unfold start, add_user, remove_user, list_users, list_links, submit_link;
    unfold_py; rewrite ?Hm; cbv beta iota zeta;
    repeat (case_split; cbv beta iota zeta; try discriminate);
    cbn [fst snd sent]; (split; [reflexivity | eexists; split; reflexivity]).
Qed.

Lemma every_message_gets_one_reply_witness :
  fst (callback noon cmd_remove_user (from_user 42) [] started) = Ok tt.
Proof.
  exact (proj1 (every_message_gets_one_reply noon cmd_remove_user (from_user 42)
                  {| chat_id := 42 |} [] started eq_refl)).
Defined.

(** X17. On an update without a message nothing is ever sent.  The handler
    ends normally only where the code guards the reply: [start], and the
    admin-only commands for a sender outside the admin set.  Everywhere
    else the reply raises [AttributeError] inside the handler, the
    catch-all clause raises it again while answering, and it leaves the
    handler. *)
Theorem without_message_nothing_is_sent
    (now : string) (c : Command) (u : Update) (args : list string) (w : World) :
  message u = None ->
  let out := callback now c u args w in
  sent (snd out) = sent w
  /\ fst out =
       if match c with
          | cmd_start => true
          | cmd_submit_link => false
          | _ => negb (is_admin (effective_user_id u))
          end
       then Ok tt
       else Raise AttributeError.
Proof.
  intros Hm out. subst out.
  destruct c; cbn [callback];
    unfold start, add_user, remove_user, list_users, list_links, submit_link;
    unfold_py; rewrite ?Hm; cbv beta iota zeta;
    repeat (case_split; cbv beta iota zeta; try discriminate);
    cbn [fst snd sent negb]; split; reflexivity.
Qed.

Lemma without_message_nothing_is_sent_witness :
  fst (callback noon cmd_list_links (without_message 123456789) [] started)
  = Raise AttributeError
  /\ fst (callback noon cmd_list_links (without_message 42) [] started) = Ok tt.
Proof.
  split.
  - exact (proj2 (without_message_nothing_is_sent noon cmd_list_links
                    (without_message 123456789) [] started eq_refl)).
  - exact (proj2 (without_message_nothing_is_sent noon cmd_list_links
                    (without_message 42) [] started eq_refl)).
Defined.



(** ** One command after another *)

Lemma submit_link_refused now u m args w :
  message u = Some m ->
  is_authorized (effective_user_id u) (db w) = false ->
  submit_link now u args w
  = (Ok tt,
     with_reply w
       (reply_to m
          "You are not authorized to submit links. Please contact an admin.")).
Proof.
  intros Hm Hauth. unfold submit_link. unfold_py. now rewrite Hauth, Hm.
Qed.

(** X19. Removal takes effect at once: after an admin's [remove_user n],
    the next [submit_link] of user [n], whatever its arguments, gets the
    not-authorized reply and stores nothing. *)
Theorem removed_user_is_refused_at_once
    (now : string) (admin : Update) (a : string) (n : Z) (rest : list string)
    (user : Update) (m : Message) (args : list string) (w : World) :
  is_admin (effective_user_id admin) = true ->
  int a = Some n ->
  effective_user_id user = n ->
  message user = Some m ->
  let w1 := snd (remove_user admin (a :: rest) w) in
  submit_link now user args w1
  = (Ok tt,
     with_reply w1
       (reply_to m
          "You are not authorized to submit links. Please contact an admin.")).
Proof.
  intros Hadmin Hn Hu Hm w1.
  apply submit_link_refused; [exact Hm|].
  subst w1. rewrite remove_user_db, Hadmin, Hn, Hu.
  apply is_authorized_not_In. rewrite remove_authorized_user_In.
  intros [Hne _]. now apply Hne.
Qed.

Lemma removed_user_is_refused_at_once_witness :
  invite_links
    (db (snd (submit_link noon (from_user 987654321) ["https://t.me/+abc123"]
                (snd (remove_user (from_user 123456789) ["987654321"] started)))))
  = [].
Proof.
  rewrite (removed_user_is_refused_at_once noon (from_user 123456789)
             "987654321" 987654321 [] (from_user 987654321)
             {| chat_id := 987654321 |} ["https://t.me/+abc123"] started
             eq_refl eq_refl eq_refl eq_refl).
  reflexivity.
Defined.

(** X20. Adding takes effect at once: after an admin's [add_user n], the
    next [submit_link] of user [n] with a well-formed link stores the link
    under [n] and gets the confirmation. *)
Theorem added_user_can_submit_at_once
    (now : string) (admin : Update) (a : string) (n : Z) (rest : list string)
    (user : Update) (m : Message) (l : string) (more : list string) (w : World) :
  is_admin (effective_user_id admin) = true ->
  int a = Some n ->
  effective_user_id user = n ->
  message user = Some m ->
  invite_link_shape l = true ->
  let w1 := snd (add_user admin (a :: rest) w) in
  let out := submit_link now user (l :: more) w1 in
  fst out = Ok tt
  /\ invite_links (db (snd out))
     = invite_links (db w) ++ [new_row n l now (db w)]
  /\ sent (snd out)
     = sent w1 ++ [reply_to m "Thank you! Your invite link has been submitted."].
Proof.
  intros Hadmin Hn Hu Hm Hshape w1 out. subst out.
  assert (Hdb : db w1 = fst (add_authorized_user n (db w)))
    by (subst w1; now rewrite add_user_db, Hadmin, Hn).
  assert (Hauth : is_authorized (effective_user_id user) (db w1) = true).
  { rewrite Hdb, Hu. apply is_authorized_In, add_authorized_user_In. now left. }
  rewrite (submit_link_cases _ _ _ _ _ _ Hm), Hauth, Hshape.
  cbn [fst snd with_reply db sent add_invite_link invite_links].
  rewrite Hdb, Hu.
  destruct (add_authorized_user_links n (db w)) as [-> ->].
  repeat split.
Qed.

Lemma added_user_can_submit_at_once_witness :
  map link
    (invite_links
       (db (snd (submit_link noon (from_user 42) ["https://t.me/+abc123"]
                   (snd (add_user (from_user 123456789) ["42"] started))))))
  = ["https://t.me/+abc123"].
Proof.
  destruct (added_user_can_submit_at_once noon (from_user 123456789) "42" 42 []
              (from_user 42) {| chat_id := 42 |} "https://t.me/+abc123" []
              started eq_refl eq_refl eq_refl eq_refl eq_refl)
    as (_ & Hlinks & _).
  rewrite Hlinks. reflexivity.
Defined.

(** ** The iteration order of the admin set *)

Lemma place_comm (u v : Z) (rows : list Z) :
  u <> v -> Sql.place u (Sql.place v rows) = Sql.place v (Sql.place u rows).
Proof.
  intros Hne. induction rows as [|r rest IH]; cbn [Sql.place].
  - destruct (Z.ltb_spec u v), (Z.ltb_spec v u); try reflexivity; lia.
  - destruct (Z.ltb_spec v r) as [Hv | Hv], (Z.ltb_spec u r) as [Hu | Hu];
      cbn [Sql.place].
    + destruct (Z.ltb_spec u v), (Z.ltb_spec v u); try lia;
        destruct (Z.ltb_spec u r), (Z.ltb_spec v r); try lia; reflexivity.
    + destruct (Z.ltb_spec u v), (Z.ltb_spec v r); try lia.
      destruct (Z.ltb_spec u r); try lia. reflexivity.
    + destruct (Z.ltb_spec v u), (Z.ltb_spec u r); try lia.
      destruct (Z.ltb_spec v r); try lia. reflexivity.
    + destruct (Z.ltb_spec u r), (Z.ltb_spec v r); try lia. now rewrite IH.
Qed.

Lemma is_authorized_add_other (u v : Z) (d : Database) :
  v <> u -> is_authorized v (fst (add_authorized_user u d)) = is_authorized v d.
Proof.
  intros Hne. apply bool_eq_iff. rewrite !is_authorized_In, add_authorized_user_In.
  tauto.
Qed.

Lemma add_authorized_user_comm (u v : Z) (d : Database) :
  fst (add_authorized_user u (fst (add_authorized_user v d)))
  = fst (add_authorized_user v (fst (add_authorized_user u d))).
Proof.
  destruct (Z.eq_dec u v) as [-> | Hne]; [reflexivity|].
  assert (Hu := is_authorized_add_other v u d Hne).
  assert (Hv := is_authorized_add_other u v d (not_eq_sym Hne)).
  destruct (is_authorized u d) eqn:Eu, (is_authorized v d) eqn:Ev;
    rewrite ?Eu, ?Ev in Hu, Hv.
  - rewrite (add_authorized_user_present v d Ev). cbn [fst].
    rewrite (add_authorized_user_present u d Eu). cbn [fst].
    now rewrite (add_authorized_user_present v d Ev).
  - rewrite (add_authorized_user_present _ _ Hu).
    now rewrite (add_authorized_user_present u d Eu).
  - rewrite (add_authorized_user_present _ _ Hv).
    now rewrite (add_authorized_user_present v d Ev).
  - rewrite (add_authorized_user_absent _ _ Hu), (add_authorized_user_absent _ _ Hv).
    rewrite (add_authorized_user_absent _ _ Eu), (add_authorized_user_absent _ _ Ev).
    cbn [fst authorized_users invite_links sqlite_sequence].
    now rewrite place_comm.
Qed.

Lemma seed_permutation (ids ids' : list Z) :
  Permutation ids ids' -> forall d, seed ids d = seed ids' d.
Proof.
  induction 1 as [|a l l' _ IH|a b l|l1 l2 l3 _ IH1 _ IH2]; intros d.
  - reflexivity.
  - rewrite !seed_cons. apply IH.
  - rewrite !seed_cons. now rewrite add_authorized_user_comm.
  - now rewrite IH1.
Qed.

(** X21. [ADMIN_IDS] is a set, iterated by [main] in an order the code does
    not choose: whatever the order, the loop leaves the same database. *)
Theorem bootstrap_order_is_irrelevant (ids : list Z) (d : Database) :
  Permutation ids ADMIN_IDS -> seed ids d = seed ADMIN_IDS d.
Proof. intros Hperm. now apply seed_permutation. Qed.

Lemma bootstrap_order_is_irrelevant_witness :
  seed [987654321; 123456789] empty_db = seed ADMIN_IDS empty_db.
Proof.
  apply (bootstrap_order_is_irrelevant [987654321; 123456789] empty_db).
  apply perm_swap.
Defined.

(** ** Identifiers as text *)












